(** * Rules of inference over boolean formulas

    A shallow embedding of [rule.py]: the functions that apply a rule of
    natural deduction to premises ([modus_ponens], [dilemma], ...) and the
    functions that check a proposed conclusion ([is_modus_ponens], ...).

    [rule.py] works on the parse trees of [logicparser]: nested Python lists
    whose first element is the operator.  The parser and the printer
    themselves ([logicparser.get_trees], [logicparser.recover_formula]) are
    not part of [rule.py]; the rules are stated over any parser and printer
    (Section [Rules]) and run on a reference pair (Module [Service]). *)

From Stdlib Require Import String Ascii List Bool Arith Lia.
Import ListNotations.
Local Open Scope string_scope.

(** ** Parse trees *)

(** The binary operators, with the strings the trees carry for them. *)
Inductive binop : Type := And | Or | Implies | Iff.

Definition op_text (o : binop) : string :=
  match o with
  | And => "&"
  | Or => "|"
  | Implies => "->"
  | Iff => "<->"
  end.

(** A parse tree is a Python list: [['a']] for a formula that is one
    variable, [['~', x]] for a negation, [[op, l, r]] for a binary formula.
    An operand ([tree[1]], [tree[2]]) is either a [str], the name of a
    variable, or again a list.  Variable names are identifiers, so the head
    [tree[0]] of a list is an operator string exactly for [Neg] and [Bin]. *)
Inductive tree : Type :=
| Single (s : string)
| Neg (x : operand)
| Bin (o : binop) (l r : operand)
with operand : Type :=
| Str (s : string)
| Lst (t : tree).

(** [len(tree)] *)
Definition len (t : tree) : nat :=
  match t with
  | Single _ => 1
  | Neg _ => 2
  | Bin _ _ _ => 3
  end.

Definition binop_eq_dec (a b : binop) : {a = b} + {a <> b}.
Proof. decide equality. Defined.

(** Python's [==] on trees and operands is structural. *)
Fixpoint tree_eq_dec (t u : tree) {struct t} : {t = u} + {t <> u}
with operand_eq_dec (x y : operand) {struct x} : {x = y} + {x <> y}.
Proof.
  - decide equality; try apply string_dec; apply binop_eq_dec.
  - decide equality; apply string_dec.
Defined.

Definition tree_eqb (t u : tree) : bool :=
  if tree_eq_dec t u then true else false.

Definition operand_eqb (x y : operand) : bool :=
  if operand_eq_dec x y then true else false.

(** The parse tree of the formula an operand stands for: a variable [a]
    that is an operand ['a'] is the formula [['a']]. *)
Definition subformula (x : operand) : tree :=
  match x with
  | Str s => Single s
  | Lst t => t
  end.

(** ** Exceptions *)

(** The exceptions [rule.py] raises or lets through.  [Exception] is the
    plain [Exception(...)] a rule raises when it does not apply to the
    premises (its message is not modelled); [SyntaxError] comes from the
    parser, [ValueError] from a bad [side], [IndexError] from an index
    past the end of a list. *)
Inductive exn : Type := SyntaxError | ValueError | IndexError | Exception.

Inductive result (A : Type) : Type :=
| Ok (a : A)
| Raise (e : exn).
Arguments Ok {A} a.
Arguments Raise {A} e.

Definition bind {A B : Type} (m : result A) (k : A -> result B) : result B :=
  match m with
  | Ok a => k a
  | Raise e => Raise e
  end.

Notation "x <- m ;; k" := (bind m (fun x => k))
  (at level 61, m at next level, right associativity).

(** [try: body  except SyntaxError: raise  except Exception: pass], for a
    body that assigns one local whose value before the [try] is [dflt]:
    a syntax error goes on to the caller, every other exception is dropped
    and the local keeps [dflt]. *)
Definition try_pass {A : Type} (body : result A) (dflt : A) : result A :=
  match body with
  | Ok a => Ok a
  | Raise SyntaxError => Raise SyntaxError
  | Raise _ => Ok dflt
  end.

(** A premise or a conclusion is given as a string or as a
    [BooleanFormula] instance, which carries its parse tree. *)
Inductive premise : Type :=
| Text (s : string)
| Formula (t : tree).

(** ** The parser and printer interface *)

(** What [rule.py] uses of [logicparser]: [parse s] is the parse tree of
    the text [s], or [None] where the parser raises [SyntaxError];
    [recover_formula t] is the text of the tree [t]. *)
Class logicparser : Type := {
  parse : string -> option tree;
  recover_formula : tree -> string
}.

Section Rules.

Context {lp : logicparser}.

(** [logicparser.get_trees] on one statement: a string is parsed, a
    [BooleanFormula] gives its tree.  [get_trees(p, q, ...)] goes through
    its arguments from left to right and raises at the first text that
    does not parse; that is a sequence of [get_tree] under [bind]. *)
Definition get_tree (p : premise) : result tree :=
  match p with
  | Text s =>
      match parse s with
      | Some t => Ok t
      | None => Raise SyntaxError
      end
  | Formula t => Ok t
  end.

(** The text of an operand, as the rules compute it
    ([x if isinstance(x, str) else logicparser.recover_formula(x)]). *)
Definition operand_text (x : operand) : string :=
  match x with
  | Str s => s
  | Lst t => recover_formula t
  end.

(** *** Modus ponens *)

(** Lines 91-107: the premises once their roles are fixed. *)
Definition modus_ponens_form (conditional_tree antecedent_tree : tree)
    (antecedent : string) : result string :=
  match conditional_tree with
  | Bin Implies l r =>
      if match l with
         | Str s => String.eqb s antecedent
         | Lst t => tree_eqb t antecedent_tree
         end
      then Ok (operand_text r)
      else Raise Exception
  | _ => Raise Exception
  end.

Definition modus_ponens (premise1 premise2 : premise) : result string :=
  tree0 <- get_tree premise1 ;;
  tree1 <- get_tree premise2 ;;
  let formula0 := recover_formula tree0 in
  let formula1 := recover_formula tree1 in
  if Nat.ltb (String.length formula1) (String.length formula0)
  then modus_ponens_form tree0 tree1 formula1
  else modus_ponens_form tree1 tree0 formula0.

Definition is_modus_ponens (premise1 premise2 conclusion : premise)
    : result bool :=
  conclusion_tree <- get_tree conclusion ;;
  actual_conclusion <- try_pass (modus_ponens premise1 premise2) "" ;;
  Ok (String.eqb actual_conclusion (recover_formula conclusion_tree)).

(** *** Modus tollens *)

(** Lines 249-260. *)
Definition modus_tollens_form (conditional_tree negated_consequent_tree : tree)
    : result string :=
  match conditional_tree, negated_consequent_tree with
  | Bin Implies l r, Neg _ =>
      if tree_eqb negated_consequent_tree (Neg r)
      then Ok (recover_formula (Neg l))
      else Raise Exception
  | _, _ => Raise Exception
  end.

Definition modus_tollens (premise1 premise2 : premise) : result string :=
  tree0 <- get_tree premise1 ;;
  tree1 <- get_tree premise2 ;;
  let formula0 := recover_formula tree0 in
  let formula1 := recover_formula tree1 in
  if Nat.ltb (String.length formula1) (String.length formula0)
  then modus_tollens_form tree0 tree1
  else modus_tollens_form tree1 tree0.

Definition is_modus_tollens (premise1 premise2 conclusion : premise)
    : result bool :=
  conclusion_tree <- get_tree conclusion ;;
  actual_conclusion <- try_pass (modus_tollens premise1 premise2) "" ;;
  Ok (String.eqb actual_conclusion (recover_formula conclusion_tree)).

(** *** Chain implication *)

Definition chain_implication (premise1 premise2 : premise) : result string :=
  premise1_tree <- get_tree premise1 ;;
  premise2_tree <- get_tree premise2 ;;
  match premise1_tree, premise2_tree with
  | Bin Implies l1 r1, Bin Implies l2 r2 =>
      if operand_eqb r1 l2 then Ok (recover_formula (Bin Implies l1 r2))
      else if operand_eqb r2 l1 then Ok (recover_formula (Bin Implies l2 r1))
      else Raise Exception
  | _, _ => Raise Exception
  end.

Definition is_chain_implication (premise1 premise2 conclusion : premise)
    : result bool :=
  conclusion_tree <- get_tree conclusion ;;
  actual_conclusion <- try_pass (chain_implication premise1 premise2) "" ;;
  Ok (String.eqb actual_conclusion (recover_formula conclusion_tree)).

(** *** Constructive dilemma *)

(** The three locals the two loops of [dilemma] assign; [None] is the
    empty list they start with, which is false in the final test. *)
Record roles : Type := {
  disjunction_tree : option tree;
  conditional_tree1 : option tree;
  conditional_tree2 : option tree
}.

Definition no_roles : roles :=
  {| disjunction_tree := None;
     conditional_tree1 := None;
     conditional_tree2 := None |}.

(** One turn of the inner loop [for tree in trees], where [trees[i]] is
    the disjunction [['|', dl, dr]]. *)
Definition scan_conditional (dl dr : operand) (st : roles) (tree : tree)
    : roles :=
  match tree with
  | Bin Implies l _ =>
      if operand_eqb l dl then
        {| disjunction_tree := disjunction_tree st;
           conditional_tree1 := Some tree;
           conditional_tree2 := conditional_tree2 st |}
      else if operand_eqb l dr then
        {| disjunction_tree := disjunction_tree st;
           conditional_tree1 := conditional_tree1 st;
           conditional_tree2 := Some tree |}
      else st
  | _ => st
  end.

(** One turn of the outer loop [for i in range(3)]. *)
Definition scan_disjunction (trees : list tree) (st : roles) (ti : tree)
    : roles :=
  match ti with
  | Bin Or dl dr =>
      fold_left (scan_conditional dl dr) trees
        {| disjunction_tree := Some ti;
           conditional_tree1 := conditional_tree1 st;
           conditional_tree2 := conditional_tree2 st |}
  | _ => st
  end.

(** [tree[2]]; a list of fewer than three items has none. *)
Definition item2 (t : tree) : result operand :=
  match t with
  | Bin _ _ r => Ok r
  | _ => Raise IndexError
  end.

Definition dilemma (premise1 premise2 premise3 : premise) : result string :=
  tree0 <- get_tree premise1 ;;
  tree1 <- get_tree premise2 ;;
  tree2 <- get_tree premise3 ;;
  let trees := [tree0; tree1; tree2] in
  let st := fold_left (scan_disjunction trees) trees no_roles in
  match disjunction_tree st, conditional_tree1 st, conditional_tree2 st with
  | Some _, Some c1, Some c2 =>
      r1 <- item2 c1 ;;
      r2 <- item2 c2 ;;
      Ok (recover_formula (Bin Or r1 r2))
  | _, _, _ => Raise Exception
  end.

Definition is_dilemma (premise1 premise2 premise3 conclusion : premise)
    : result bool :=
  conclusion_tree <- get_tree conclusion ;;
  actual_conclusion <- try_pass (dilemma premise1 premise2 premise3) "" ;;
  Ok (String.eqb actual_conclusion (recover_formula conclusion_tree)).

(** *** Disjunction elimination *)

(** Lines 701-722. *)
Definition disjunction_elim_form (disjunction_tree negated_disjunct_tree : tree)
    : result string :=
  match disjunction_tree with
  | Bin Or l r =>
      if tree_eqb negated_disjunct_tree (Neg l) then Ok (operand_text r)
      else if tree_eqb negated_disjunct_tree (Neg r) then Ok (operand_text l)
      else Raise Exception
  | _ => Raise Exception
  end.

Definition disjunction_elim (premise1 premise2 : premise) : result string :=
  tree0 <- get_tree premise1 ;;
  tree1 <- get_tree premise2 ;;
  let formula0 := recover_formula tree0 in
  let formula1 := recover_formula tree1 in
  if Nat.ltb (String.length formula1) (String.length formula0)
  then disjunction_elim_form tree0 tree1
  else disjunction_elim_form tree1 tree0.

Definition is_disjunction_elim (premise1 premise2 conclusion : premise)
    : result bool :=
  conclusion_tree <- get_tree conclusion ;;
  actual_conclusion <- try_pass (disjunction_elim premise1 premise2) "" ;;
  Ok (String.eqb actual_conclusion (recover_formula conclusion_tree)).

(** *** Disjunction introduction *)

(** Lines 858-868: a binary formula is put in parentheses. *)
Definition wrapped (t : tree) : string :=
  if Nat.ltb (len t) 3 then recover_formula t
  else "(" ++ recover_formula t ++ ")".

Definition disjunction_intro (premise1 statement : premise) (side : string)
    : result string :=
  premise1_tree <- get_tree premise1 ;;
  statement_tree <- get_tree statement ;;
  if negb (String.eqb side "right" || String.eqb side "left")
  then Raise ValueError
  else
    let premise1 := wrapped premise1_tree in
    let statement := wrapped statement_tree in
    if String.eqb side "left"
    then Ok (statement ++ "|" ++ premise1)
    else Ok (premise1 ++ "|" ++ statement).

Definition is_disjunction_intro (premise1 conclusion : premise)
    : result bool :=
  premise1_tree <- get_tree premise1 ;;
  conclusion_tree <- get_tree conclusion ;;
  (* [if len(premise1_tree) == 1: premise1_tree = premise1_tree[0]] *)
  let premise1_tree :=
    match premise1_tree with
    | Single s => Str s
    | t => Lst t
    end in
  match conclusion_tree with
  | Bin Or l r =>
      Ok (tree_eqb conclusion_tree (Bin Or premise1_tree r)
          || tree_eqb conclusion_tree (Bin Or l premise1_tree))
  | _ => Ok false
  end.

(** *** Conjunction elimination *)

Definition conjunction_elim (premise1 : premise) (side : string)
    : result string :=
  conjunction_tree <- get_tree premise1 ;;
  if negb (String.eqb side "right") && negb (String.eqb side "left")
  then Raise ValueError
  else
    match conjunction_tree with
    | Bin And l r =>
        if String.eqb side "right" then Ok (operand_text r)
        else Ok (operand_text l)
    | _ => Raise Exception
    end.

(** The [try] block assigns two locals in turn; an exception that is
    passed leaves those not yet assigned at [""]. *)
Definition is_conjunction_elim (premise1 conclusion : premise)
    : result bool :=
  conclusion_tree <- get_tree conclusion ;;
  actual <-
    try_pass
      (actual_conclusion1 <- conjunction_elim premise1 "right" ;;
       try_pass
         (actual_conclusion2 <- conjunction_elim premise1 "left" ;;
          Ok (actual_conclusion1, actual_conclusion2))
         (actual_conclusion1, ""))
      ("", "") ;;
  let conclusion := recover_formula conclusion_tree in
  Ok (String.eqb (fst actual) conclusion || String.eqb (snd actual) conclusion).

(** *** Conjunction introduction *)

Definition conjunction_intro (premise1 premise2 : premise) : result string :=
  premise1_tree <- get_tree premise1 ;;
  premise2_tree <- get_tree premise2 ;;
  Ok (recover_formula (Bin And (Lst premise1_tree) (Lst premise2_tree))).

(** Here the [try] has the one handler [except SyntaxError: raise]. *)
Definition is_conjunction_intro (premise1 premise2 conclusion : premise)
    : result bool :=
  conclusion_tree <- get_tree conclusion ;;
  actual_conclusion1 <- conjunction_intro premise1 premise2 ;;
  actual_conclusion2 <- conjunction_intro premise2 premise1 ;;
  let conclusion := recover_formula conclusion_tree in
  Ok (String.eqb actual_conclusion1 conclusion
      || String.eqb actual_conclusion2 conclusion).

End Rules.

(** ** A reference parser and printer *)

Module Service.

(** Modelled from the spec: [logicparser.recover_formula], the printer of
    the Formula Service, which is not part of [rule.py].  The canonical text
    keeps a variable and a negation bare and puts parentheses around every
    binary formula that is an operand, never around the whole formula; the
    doctests of [rule.py] show it (['(a&c)->(b|d)'], ['~~(d|c)'],
    ['(p&r)&(p<->~q)']). *)
Fixpoint inner_text (t : tree) : string :=
  match t with
  | Single s => s
  | Neg x => "~" ++ inner_operand x
  | Bin o l r => "(" ++ inner_operand l ++ op_text o ++ inner_operand r ++ ")"
  end
with inner_operand (x : operand) : string :=
  match x with
  | Str s => s
  | Lst t => inner_text t
  end.

Definition canonical_text (t : tree) : string :=
  match t with
  | Bin o l r => inner_operand l ++ op_text o ++ inner_operand r
  | _ => inner_text t
  end.

Inductive token : Type :=
| TName (s : string)
| TNot
| TOp (o : binop)
| TOpen
| TClose.

Definition is_name_char (c : ascii) : bool :=
  let n := nat_of_ascii c in
  (48 <=? n)%nat && (n <=? 57)%nat
  || (65 <=? n)%nat && (n <=? 90)%nat
  || (97 <=? n)%nat && (n <=? 122)%nat
  || (n =? 95)%nat.

Definition cons_token (t : token) (r : option (list token))
    : option (list token) :=
  match r with
  | Some toks => Some (t :: toks)
  | None => None
  end.

Definition starts_name (s : string) : bool :=
  match s with
  | String c _ => is_name_char c
  | EmptyString => false
  end.

Fixpoint tokenize (s : string) : option (list token) :=
  match s with
  | EmptyString => Some []
  | String c rest =>
      if Ascii.eqb c "~" then cons_token TNot (tokenize rest)
      else if Ascii.eqb c "&" then cons_token (TOp And) (tokenize rest)
      else if Ascii.eqb c "|" then cons_token (TOp Or) (tokenize rest)
      else if Ascii.eqb c "(" then cons_token TOpen (tokenize rest)
      else if Ascii.eqb c ")" then cons_token TClose (tokenize rest)
      else if Ascii.eqb c " " then tokenize rest
      else if Ascii.eqb c "-" then
        match rest with
        | String d rest' =>
            if Ascii.eqb d ">" then cons_token (TOp Implies) (tokenize rest')
            else None
        | EmptyString => None
        end
      else if Ascii.eqb c "<" then
        match rest with
        | String d (String e rest') =>
            if Ascii.eqb d "-" && Ascii.eqb e ">"
            then cons_token (TOp Iff) (tokenize rest')
            else None
        | _ => None
        end
      else if is_name_char c then
        match tokenize rest with
        | Some (TName n :: toks) =>
            if starts_name rest then Some (TName (String c n) :: toks)
            else Some (TName (String c "") :: TName n :: toks)
        | Some toks => Some (TName (String c "") :: toks)
        | None => None
        end
      else None
  end.

(** An operand: a variable, a negated operand, or a formula in
    parentheses, which holds one operand or two around an operator. *)
Fixpoint read_operand (fuel : nat) (toks : list token)
    : option (operand * list token) :=
  match fuel with
  | 0 => None
  | S fuel =>
      match toks with
      | TName s :: rest => Some (Str s, rest)
      | TNot :: rest =>
          match read_operand fuel rest with
          | Some (x, rest') => Some (Lst (Neg x), rest')
          | None => None
          end
      | TOpen :: rest =>
          match read_operand fuel rest with
          | Some (l, TClose :: rest') => Some (l, rest')
          | Some (l, TOp o :: rest') =>
              match read_operand fuel rest' with
              | Some (r, TClose :: rest'') => Some (Lst (Bin o l r), rest'')
              | _ => None
              end
          | _ => None
          end
      | _ => None
      end
  end.

(** Modelled from the spec: the parser of the Formula Service behind
    [logicparser.get_trees], which is not part of [rule.py].  It reads the
    formulas the doctests of [rule.py] are written in: variables, ['~'],
    parentheses, and one binary operator at each level of parentheses;
    any other text is a syntax error. *)
Definition read (s : string) : option tree :=
  match tokenize s with
  | None => None
  | Some toks =>
      let fuel := S (List.length toks) in
      match read_operand fuel toks with
      | Some (x, []) => Some (subformula x)
      | Some (l, TOp o :: rest) =>
          match read_operand fuel rest with
          | Some (r, []) => Some (Bin o l r)
          | _ => None
          end
      | _ => None
      end
  end.

Definition reference : logicparser :=
  {| parse := read; recover_formula := canonical_text |}.

End Service.

(** ** The conditions of the rules, as propositions *)

(** The roles two premises get from the lengths of their texts: [c] is the
    candidate conditional (or disjunction), [o] the other premise.  The
    first premise is the candidate when its text is strictly longer. *)
Definition primary_role {lp : logicparser} (t0 t1 c o : tree) : Prop :=
  (String.length (recover_formula t1) < String.length (recover_formula t0)
   /\ c = t0 /\ o = t1)
  \/ (String.length (recover_formula t0) <= String.length (recover_formula t1)
      /\ c = t1 /\ o = t0).

(** The left child [l] of a conditional is the other premise [o]: the same
    tree, or a variable whose name is the text of [o]. *)
Definition antecedent_matches {lp : logicparser} (l : operand) (o : tree)
    : Prop :=
  l = Lst o \/ exists s, l = Str s /\ s = recover_formula o.

Definition is_or (t : tree) : Prop := exists l r, t = Bin Or l r.

(** A premise whose text the parser rejects. *)
Definition malformed {lp : logicparser} (p : premise) : Prop :=
  get_tree p = Raise SyntaxError.

(** What the loops of [dilemma] keep true of the roles they have assigned:
    each is one of the premises; the disjunction is a disjunction; the first
    conditional goes from the left child of a premise that is a disjunction,
    the second from the right child of one, which is not its left child. *)
Definition roles_sound (trees : list tree) (st : roles) : Prop :=
  (forall d, disjunction_tree st = Some d -> In d trees /\ is_or d)
  /\ (forall c, conditional_tree1 st = Some c ->
        In c trees
        /\ exists dl dr r, In (Bin Or dl dr) trees /\ c = Bin Implies dl r)
  /\ (forall c, conditional_tree2 st = Some c ->
        In c trees
        /\ exists dl dr r,
             In (Bin Or dl dr) trees /\ c = Bin Implies dr r /\ dr <> dl).

(** A tree whose head is the binary operator [o]; a negation. *)
Definition has_op (o : binop) (t : tree) : Prop := exists l r, t = Bin o l r.

Definition is_neg (t : tree) : Prop := exists x, t = Neg x.

(** The premise of [is_disjunction_intro] as it is compared with the
    children of the conclusion (lines 937-939): the tree of a lone
    variable, [['a']], is replaced by its one item. *)
Definition as_operand (t : tree) : operand :=
  match t with
  | Single s => Str s
  | _ => Lst t
  end.

(** A result that is a value or the [Exception] of a rule that does not
    apply. *)
Definition settled {A : Type} (r : result A) : Prop :=
  (exists a, r = Ok a) \/ r = Raise Exception.

(** ** Facts on the embedding *)

Lemma tree_eqb_eq t u : tree_eqb t u = true <-> t = u.
Proof. unfold tree_eqb; destruct (tree_eq_dec t u); split; congruence. Qed.

Lemma operand_eqb_eq x y : operand_eqb x y = true <-> x = y.
Proof.
  unfold operand_eqb; destruct (operand_eq_dec x y); split; congruence.
Qed.

Lemma tree_eqb_refl t : tree_eqb t t = true.
Proof. apply tree_eqb_eq; reflexivity. Qed.

Lemma operand_eqb_refl x : operand_eqb x x = true.
Proof. apply operand_eqb_eq; reflexivity. Qed.

Lemma tree_eqb_neq t u : t <> u -> tree_eqb t u = false.
Proof. intro H; unfold tree_eqb; destruct (tree_eq_dec t u); congruence. Qed.

Lemma operand_eqb_neq x y : x <> y -> operand_eqb x y = false.
Proof.
  intro H; unfold operand_eqb; destruct (operand_eq_dec x y); congruence.
Qed.

Section Facts.

Context {lp : logicparser}.

Lemma get_tree_raise p e : get_tree p = Raise e -> e = SyntaxError.
Proof.
  destruct p as [s | t]; simpl; [destruct (parse s) |]; congruence.
Qed.

Lemma get_tree_cases p :
  (exists t, get_tree p = Ok t) \/ get_tree p = Raise SyntaxError.
Proof.
  destruct (get_tree p) as [t | e] eqn:E; [left; eauto |].
  right; rewrite (get_tree_raise _ _ E); reflexivity.
Qed.

Lemma primary_role_cases t0 t1 c o :
  primary_role t0 t1 c o ->
  (Nat.ltb (String.length (recover_formula t1))
           (String.length (recover_formula t0)) = true /\ c = t0 /\ o = t1)
  \/ (Nat.ltb (String.length (recover_formula t1))
              (String.length (recover_formula t0)) = false /\ c = t1 /\ o = t0).
Proof.
  intros [(H & -> & ->) | (H & -> & ->)]; [left | right]; repeat split.
  - apply Nat.ltb_lt; exact H.
  - apply Nat.ltb_ge; exact H.
Qed.

(** Under a printer that prints a lone variable as its name, the text the
    rules give an operand is the text of the formula it stands for. *)
Lemma operand_text_subformula x :
  (forall s, recover_formula (Single s) = s) ->
  operand_text x = recover_formula (subformula x).
Proof.
  intro H; destruct x as [s | t]; simpl; [symmetry; apply H | reflexivity].
Qed.

Lemma antecedent_test l o :
  match l with
  | Str s => String.eqb s (recover_formula o)
  | Lst t => tree_eqb t o
  end = true <-> antecedent_matches l o.
Proof.
  unfold antecedent_matches; destruct l as [s | t].
  - rewrite String.eqb_eq; split.
    + intros ->; right; eauto.
    + intros [H | (s' & H & ->)]; congruence.
  - rewrite tree_eqb_eq; split.
    + intros ->; left; reflexivity.
    + intros [H | (s' & H & _)]; congruence.
Qed.

Lemma modus_ponens_form_ok l r o :
  antecedent_matches l o ->
  modus_ponens_form (Bin Implies l r) o (recover_formula o)
  = Ok (operand_text r).
Proof.
  intro H; apply antecedent_test in H; unfold modus_ponens_form.
  rewrite H; reflexivity.
Qed.

Lemma modus_ponens_form_raise c o :
  (forall l r, c = Bin Implies l r -> ~ antecedent_matches l o) ->
  modus_ponens_form c o (recover_formula o) = Raise Exception.
Proof.
  intro H; unfold modus_ponens_form.
  destruct c as [s | x | [] l r]; try reflexivity.
  destruct (match l with Str s => _ | Lst t => _ end) eqn:E; [| reflexivity].
  apply antecedent_test in E; exfalso; exact (H l r eq_refl E).
Qed.

(** C1: when both premises parse, [modus_ponens] takes the premise with the
    longer text as the conditional (the second one when neither is longer).
    If that premise is an implication whose left child is the other
    premise's tree, or a variable whose name is the other premise's text, the
    result is the text of the implication's right child; in every other case
    the rule raises its [Exception]. *)
Theorem modus_ponens_spec (p1 p2 : premise) (t0 t1 c o : tree) :
  (forall s, recover_formula (Single s) = s) ->
  get_tree p1 = Ok t0 ->
  get_tree p2 = Ok t1 ->
  primary_role t0 t1 c o ->
  (forall l r, c = Bin Implies l r -> antecedent_matches l o ->
     modus_ponens p1 p2 = Ok (recover_formula (subformula r)))
  /\ ((forall l r, c = Bin Implies l r -> ~ antecedent_matches l o) ->
      modus_ponens p1 p2 = Raise Exception).
Proof.
  intros Hs H0 H1 Hrole; unfold modus_ponens; rewrite H0, H1; simpl.
  apply primary_role_cases in Hrole.
  destruct Hrole as [(-> & -> & ->) | (-> & -> & ->)]; split.
  - intros l r -> Hm. rewrite <- operand_text_subformula by exact Hs.
    apply modus_ponens_form_ok; exact Hm.
  - apply modus_ponens_form_raise.
  - intros l r -> Hm. rewrite <- operand_text_subformula by exact Hs.
    apply modus_ponens_form_ok; exact Hm.
  - apply modus_ponens_form_raise.
Qed.

Lemma disjunction_elim_form_spec d n :
  (forall l r, d = Bin Or l r -> n = Neg l ->
     disjunction_elim_form d n = Ok (operand_text r))
  /\ (forall l r, d = Bin Or l r -> n <> Neg l -> n = Neg r ->
       disjunction_elim_form d n = Ok (operand_text l))
  /\ ((forall l r, d = Bin Or l r -> n <> Neg l /\ n <> Neg r) ->
       disjunction_elim_form d n = Raise Exception).
Proof.
  unfold disjunction_elim_form; repeat split.
  - intros l r -> ->; rewrite tree_eqb_refl; reflexivity.
  - intros l r -> Hl ->; rewrite (tree_eqb_neq _ _ Hl), tree_eqb_refl.
    reflexivity.
  - intro H; destruct d as [s | x | [] l r]; try reflexivity.
    destruct (H l r eq_refl) as [Hl Hr].
    rewrite (tree_eqb_neq _ _ Hl), (tree_eqb_neq _ _ Hr); reflexivity.
Qed.

(** C8: when both premises parse, [disjunction_elim] takes the premise with
    the longer text as the disjunction (the second one when neither is
    longer).  If it is a disjunction and the other premise is the negation
    of its left child, the result is the text of the right child; otherwise,
    if the other premise is the negation of its right child, the result is
    the text of the left child; in every other case the rule raises its
    [Exception]. *)
Theorem disjunction_elim_spec (p1 p2 : premise) (t0 t1 d n : tree) :
  (forall s, recover_formula (Single s) = s) ->
  get_tree p1 = Ok t0 ->
  get_tree p2 = Ok t1 ->
  primary_role t0 t1 d n ->
  (forall l r, d = Bin Or l r -> n = Neg l ->
     disjunction_elim p1 p2 = Ok (recover_formula (subformula r)))
  /\ (forall l r, d = Bin Or l r -> n <> Neg l -> n = Neg r ->
       disjunction_elim p1 p2 = Ok (recover_formula (subformula l)))
  /\ ((forall l r, d = Bin Or l r -> n <> Neg l /\ n <> Neg r) ->
       disjunction_elim p1 p2 = Raise Exception).
Proof.
  intros Hs H0 H1 Hrole; unfold disjunction_elim; rewrite H0, H1; simpl.
  destruct (disjunction_elim_form_spec d n) as (Ha & Hb & Hc).
  apply primary_role_cases in Hrole.
  destruct Hrole as [(-> & -> & ->) | (-> & -> & ->)];
    (split; [| split]);
    try (intros l r; rewrite <- operand_text_subformula by exact Hs);
    eauto.
Qed.

(** C10: when the texts of the two premises have the same length,
    [modus_ponens], [modus_tollens] and [disjunction_elim] give the second
    premise the primary role (conditional, disjunction) and the first
    premise the other role. *)
Theorem equal_length_second_is_primary (p1 p2 : premise) (t0 t1 : tree) :
  get_tree p1 = Ok t0 ->
  get_tree p2 = Ok t1 ->
  String.length (recover_formula t0) = String.length (recover_formula t1) ->
  modus_ponens p1 p2 = modus_ponens_form t1 t0 (recover_formula t0)
  /\ modus_tollens p1 p2 = modus_tollens_form t1 t0
  /\ disjunction_elim p1 p2 = disjunction_elim_form t1 t0.
Proof.
  intros H0 H1 Hlen.
  unfold modus_ponens, modus_tollens, disjunction_elim.
  rewrite H0, H1; simpl; rewrite Hlen, Nat.ltb_irrefl; auto.
Qed.

(** *** Errors *)

Ltac step_parse :=
  match goal with
  | H : get_tree ?p = _ |- context [get_tree ?p] => rewrite H; simpl
  | |- context [bind (get_tree ?p) _] =>
      let E := fresh "E" in
      destruct (get_tree_cases p) as [[? E] | E]; rewrite E; simpl
  end.

Ltac raise_syntax :=
  unfold malformed in *;
  unfold is_modus_ponens, is_modus_tollens, is_chain_implication, is_dilemma,
    is_disjunction_elim, is_disjunction_intro, is_conjunction_elim,
    is_conjunction_intro;
  unfold modus_ponens, modus_tollens, chain_implication, dilemma,
    disjunction_elim, disjunction_intro, conjunction_elim, conjunction_intro;
  repeat step_parse; try reflexivity; try congruence.

Lemma eqb_empty s : s <> "" -> String.eqb "" s = false.
Proof. intro H; apply String.eqb_neq; congruence. Qed.

(** C3: every rule and every check raises [SyntaxError] as soon as one of
    its formula arguments is malformed, whatever the other arguments are;
    no check turns it into a boolean. *)
Theorem syntax_error_propagates (p1 p2 p3 c : premise) (side : string) :
  (malformed p1 \/ malformed p2 ->
     modus_ponens p1 p2 = Raise SyntaxError
     /\ modus_tollens p1 p2 = Raise SyntaxError
     /\ chain_implication p1 p2 = Raise SyntaxError
     /\ disjunction_elim p1 p2 = Raise SyntaxError
     /\ disjunction_intro p1 p2 side = Raise SyntaxError
     /\ conjunction_intro p1 p2 = Raise SyntaxError)
  /\ (malformed p1 \/ malformed p2 \/ malformed p3 ->
       dilemma p1 p2 p3 = Raise SyntaxError)
  /\ (malformed p1 -> conjunction_elim p1 side = Raise SyntaxError)
  /\ (malformed p1 \/ malformed p2 \/ malformed c ->
       is_modus_ponens p1 p2 c = Raise SyntaxError
       /\ is_modus_tollens p1 p2 c = Raise SyntaxError
       /\ is_chain_implication p1 p2 c = Raise SyntaxError
       /\ is_disjunction_elim p1 p2 c = Raise SyntaxError
       /\ is_conjunction_intro p1 p2 c = Raise SyntaxError)
  /\ (malformed p1 \/ malformed p2 \/ malformed p3 \/ malformed c ->
       is_dilemma p1 p2 p3 c = Raise SyntaxError)
  /\ (malformed p1 \/ malformed c ->
       is_disjunction_intro p1 c = Raise SyntaxError
       /\ is_conjunction_elim p1 c = Raise SyntaxError).
Proof.
  repeat match goal with
         | |- _ /\ _ => split
         | |- _ -> _ => intro
         end;
    match goal with
    | H : _ \/ _ |- _ => decompose [or] H; clear H
    | _ => idtac
    end; raise_syntax.
Qed.

Lemma check_of_raise (body : result string) (ct : tree) (e : exn) :
  recover_formula ct <> "" ->
  e <> SyntaxError ->
  body = Raise e ->
  (actual_conclusion <- try_pass body "" ;;
   Ok (String.eqb actual_conclusion (recover_formula ct))) = Ok false.
Proof.
  intros Hne He ->; destruct e; try congruence; unfold try_pass, bind;
    rewrite (eqb_empty _ Hne); reflexivity.
Qed.

Lemma conjunction_elim_raises p :
  conjunction_elim p "right" = Raise Exception
  \/ conjunction_elim p "left" = Raise Exception ->
  conjunction_elim p "right" = Raise Exception.
Proof.
  unfold conjunction_elim; destruct (get_tree p) as [t | e]; simpl.
  - destruct t as [s | x | [] l r]; simpl; intros [H | H]; congruence.
  - intros [H | H]; congruence.
Qed.

(** C2: when the premises parse but the rule does not apply to them (the
    apply function raises its [Exception]), the check of any conclusion
    that parses, whose text is then not empty, returns [false].
    [disjunction_intro] and [conjunction_intro] apply to all premises, and
    their checks never raise that exception either. *)
Theorem inapplicable_rule_checks_false (p1 p2 p3 c : premise) (ct : tree) :
  get_tree c = Ok ct ->
  recover_formula ct <> "" ->
  (modus_ponens p1 p2 = Raise Exception ->
     is_modus_ponens p1 p2 c = Ok false)
  /\ (modus_tollens p1 p2 = Raise Exception ->
       is_modus_tollens p1 p2 c = Ok false)
  /\ (chain_implication p1 p2 = Raise Exception ->
       is_chain_implication p1 p2 c = Ok false)
  /\ (dilemma p1 p2 p3 = Raise Exception ->
       is_dilemma p1 p2 p3 c = Ok false)
  /\ (disjunction_elim p1 p2 = Raise Exception ->
       is_disjunction_elim p1 p2 c = Ok false)
  /\ (conjunction_elim p1 "right" = Raise Exception
      \/ conjunction_elim p1 "left" = Raise Exception ->
       is_conjunction_elim p1 c = Ok false)
  /\ (forall side, disjunction_intro p1 p2 side <> Raise Exception)
  /\ conjunction_intro p1 p2 <> Raise Exception
  /\ is_disjunction_intro p1 c <> Raise Exception
  /\ is_conjunction_intro p1 p2 c <> Raise Exception.
Proof.
  intros Hc Hne.
  assert (Hx : Exception <> SyntaxError) by discriminate.
  repeat match goal with |- _ /\ _ => split end.
  1-5: intro H;
    unfold is_modus_ponens, is_modus_tollens, is_chain_implication,
      is_dilemma, is_disjunction_elim;
    rewrite Hc; simpl; exact (check_of_raise _ ct _ Hne Hx H).
  - intro H; apply conjunction_elim_raises in H.
    unfold is_conjunction_elim; rewrite Hc, H; unfold try_pass, bind, fst, snd.
    rewrite (eqb_empty _ Hne); reflexivity.
  - intro side; unfold disjunction_intro.
    repeat step_parse; try discriminate.
    destruct (negb _); [discriminate |].
    destruct (String.eqb side "left"); discriminate.
  - unfold conjunction_intro; repeat step_parse; discriminate.
  - unfold is_disjunction_intro; repeat step_parse; try discriminate.
    destruct ct as [s | y | [] l r]; discriminate.
  - unfold is_conjunction_intro, conjunction_intro.
    repeat step_parse; discriminate.
Qed.

Lemma bad_side side :
  side <> "right" -> side <> "left" ->
  String.eqb side "right" = false /\ String.eqb side "left" = false.
Proof. intros Hr Hl; split; apply String.eqb_neq; assumption. Qed.

(** C4, as the code has it: for a [side] that is neither ['right'] nor
    ['left'], [disjunction_intro] and [conjunction_elim] raise [ValueError]
    when their formula arguments parse, before the trees are looked at (also
    when the premise of [conjunction_elim] is no conjunction); when a
    formula argument is malformed they raise [SyntaxError], because the
    arguments are parsed before [side] is tested. *)
Theorem bad_side_after_parsing (p1 p2 : premise) (side : string) :
  side <> "right" ->
  side <> "left" ->
  (forall t1 t2, get_tree p1 = Ok t1 -> get_tree p2 = Ok t2 ->
     disjunction_intro p1 p2 side = Raise ValueError)
  /\ (forall t1, get_tree p1 = Ok t1 ->
       conjunction_elim p1 side = Raise ValueError)
  /\ (malformed p1 \/ malformed p2 ->
       disjunction_intro p1 p2 side = Raise SyntaxError)
  /\ (malformed p1 -> conjunction_elim p1 side = Raise SyntaxError).
Proof.
  intros Hr Hl; destruct (bad_side side Hr Hl) as [Er El].
  repeat match goal with |- _ /\ _ => split end.
  - intros t1 t2 H1 H2; unfold disjunction_intro; rewrite H1, H2; simpl.
    rewrite Er, El; reflexivity.
  - intros t1 H1; unfold conjunction_elim; rewrite H1; simpl.
    rewrite Er, El; reflexivity.
  - intros [H | H]; raise_syntax.
  - intro H; raise_syntax.
Qed.

(** *** Chain implication *)

(** C5, as the code has it: for two premises that parse as implications,
    [chain_implication] gives the same result in both orders of its
    arguments, unless the premises are converses [A->B] and [B->A] with
    [A] and [B] different; there each order chains from its own first
    argument. *)
Theorem chain_implication_swap (p1 p2 : premise) (l1 r1 l2 r2 : operand) :
  get_tree p1 = Ok (Bin Implies l1 r1) ->
  get_tree p2 = Ok (Bin Implies l2 r2) ->
  (r1 = l2 -> r2 = l1 -> l1 = r1) ->
  chain_implication p1 p2 = chain_implication p2 p1.
Proof.
  intros H1 H2 Hconv; unfold chain_implication; rewrite H1, H2; simpl.
  destruct (operand_eqb r1 l2) eqn:E1; destruct (operand_eqb r2 l1) eqn:E2;
    try reflexivity.
  apply operand_eqb_eq in E1, E2.
  specialize (Hconv E1 E2); subst; reflexivity.
Qed.

(** *** Conjunction introduction *)

(** C9: when the premises and the conclusion parse, [conjunction_intro]
    renders the conjunction with its first argument on the left, in either
    order of the arguments, and [is_conjunction_intro] returns [true]
    exactly when the text of the conclusion is the text of one of the two
    conjunctions. *)
Theorem conjunction_intro_check (p1 p2 c : premise) (t1 t2 ct : tree) :
  get_tree p1 = Ok t1 ->
  get_tree p2 = Ok t2 ->
  get_tree c = Ok ct ->
  conjunction_intro p1 p2 = Ok (recover_formula (Bin And (Lst t1) (Lst t2)))
  /\ conjunction_intro p2 p1
     = Ok (recover_formula (Bin And (Lst t2) (Lst t1)))
  /\ exists b, is_conjunction_intro p1 p2 c = Ok b
       /\ (b = true <->
           recover_formula ct = recover_formula (Bin And (Lst t1) (Lst t2))
           \/ recover_formula ct
              = recover_formula (Bin And (Lst t2) (Lst t1))).
Proof.
  intros H1 H2 Hc; unfold is_conjunction_intro, conjunction_intro.
  rewrite H1, H2, Hc; unfold bind.
  split; [reflexivity | split; [reflexivity |]].
  eexists; split; [reflexivity |].
  rewrite Bool.orb_true_iff, !String.eqb_eq.
  split; intros [H | H]; auto.
Qed.

(** *** Constructive dilemma *)

Lemma fold_left_keeps {A B : Type} (f : A -> B -> A) (P : A -> Prop)
    (l : list B) :
  (forall a b, In b l -> P a -> P (f a b)) ->
  forall a, P a -> P (fold_left f l a).
Proof.
  induction l as [| b l IH]; intros Hf a Ha; simpl; [exact Ha |].
  apply IH.
  - intros a' b' Hb'; apply Hf; right; exact Hb'.
  - apply Hf; [left; reflexivity | exact Ha].
Qed.

Lemma scan_conditional_sound trees dl dr st t :
  In (Bin Or dl dr) trees -> In t trees ->
  roles_sound trees st -> roles_sound trees (scan_conditional dl dr st t).
Proof.
  intros Hd Ht Hst; unfold scan_conditional.
  destruct t as [s | x | [] l r]; try exact Hst.
  destruct Hst as (Hsd & Hs1 & Hs2).
  destruct (operand_eqb l dl) eqn:E1.
  - apply operand_eqb_eq in E1; subst l.
    split; [| split]; simpl; auto.
    intros c [= <-]; eauto 6.
  - destruct (operand_eqb l dr) eqn:E2; [| split; [| split]; assumption].
    apply operand_eqb_eq in E2; subst l.
    assert (dr <> dl)
      by (intros ->; rewrite operand_eqb_refl in E1; discriminate).
    split; [| split]; simpl; auto.
    intros c [= <-]; eauto 7.
Qed.

Lemma scan_disjunction_sound trees st t :
  In t trees ->
  roles_sound trees st -> roles_sound trees (scan_disjunction trees st t).
Proof.
  intros Ht Hst; unfold scan_disjunction.
  destruct t as [s | x | [] l r]; try exact Hst.
  apply fold_left_keeps.
  - intros a b Hb; apply scan_conditional_sound; assumption.
  - destruct Hst as (Hsd & Hs1 & Hs2); split; [| split]; simpl; auto.
    intros c [= <-]; split; [assumption | red; eauto].
Qed.

Lemma scan_sound trees :
  roles_sound trees (fold_left (scan_disjunction trees) trees no_roles).
Proof.
  apply fold_left_keeps.
  - intros a b Hb; apply scan_disjunction_sound; exact Hb.
  - split; [| split]; simpl; discriminate.
Qed.

Lemma dilemma_parsed p1 p2 p3 t1 t2 t3 :
  get_tree p1 = Ok t1 ->
  get_tree p2 = Ok t2 ->
  get_tree p3 = Ok t3 ->
  dilemma p1 p2 p3
  = match fold_left (scan_disjunction [t1; t2; t3]) [t1; t2; t3] no_roles with
    | {| disjunction_tree := Some _;
         conditional_tree1 := Some c1;
         conditional_tree2 := Some c2 |} =>
        r1 <- item2 c1 ;;
        r2 <- item2 c2 ;;
        Ok (recover_formula (Bin Or r1 r2))
    | _ => Raise Exception
    end.
Proof.
  intros H1 H2 H3; unfold dilemma; rewrite H1, H2, H3; unfold bind at 1 2 3.
  cbv zeta.
  destruct (fold_left _ _ no_roles) as [[d |] [c1 |] [c2 |]]; reflexivity.
Qed.

(** X13: when the three premises parse and every premise that is a
    disjunction is the same disjunction [A|B] (so when one premise only is a
    disjunction), [dilemma] returns a conclusion only if [A|B] is among the
    premises with [A] and [B] different, and two different premises are
    implications [A->P] and [B->Q]; the conclusion is then the text of
    [P|Q]. *)
Theorem dilemma_single_disjunction (p1 p2 p3 : premise) (t1 t2 t3 : tree)
    (dl dr : operand) (s : string) :
  get_tree p1 = Ok t1 ->
  get_tree p2 = Ok t2 ->
  get_tree p3 = Ok t3 ->
  (forall d, In d [t1; t2; t3] -> is_or d -> d = Bin Or dl dr) ->
  dilemma p1 p2 p3 = Ok s ->
  In (Bin Or dl dr) [t1; t2; t3]
  /\ dl <> dr
  /\ exists p q,
       In (Bin Implies dl p) [t1; t2; t3]
       /\ In (Bin Implies dr q) [t1; t2; t3]
       /\ Bin Implies dl p <> Bin Implies dr q
       /\ s = recover_formula (Bin Or p q).
Proof.
  intros H1 H2 H3 Hu; rewrite (dilemma_parsed _ _ _ _ _ _ H1 H2 H3).
  pose proof (scan_sound [t1; t2; t3]) as Hst.
  set (st := fold_left (scan_disjunction [t1; t2; t3]) [t1; t2; t3] no_roles)
    in *.
  clearbody st; destruct Hst as (Hd & Hc1 & Hc2).
  destruct st as [[d |] [c1 |] [c2 |]];
    cbn [disjunction_tree conditional_tree1 conditional_tree2] in *;
    try discriminate.
  destruct (Hc1 c1 eq_refl) as (I1 & al & ar & p & Ia & ->).
  destruct (Hc2 c2 eq_refl) as (I2 & bl & br & q & Ib & -> & Hne).
  simpl; intros [= <-].
  assert (Ea : Bin Or al ar = Bin Or dl dr)
    by (apply Hu; [assumption | red; eauto]).
  assert (Eb : Bin Or bl br = Bin Or dl dr)
    by (apply Hu; [assumption | red; eauto]).
  injection Ea as -> ->; injection Eb as -> ->.
  split; [assumption | split; [congruence |]].
  exists p, q; repeat split; auto; congruence.
Qed.

Ltac run_dilemma :=
  unfold dilemma;
  repeat match goal with
         | H : get_tree _ = _ |- _ => rewrite H
         end;
  cbn [bind fold_left scan_disjunction scan_conditional no_roles item2
       disjunction_tree conditional_tree1 conditional_tree2];
  repeat (rewrite ?operand_eqb_refl;
          repeat match goal with
                 | H : operand_eqb _ _ = _ |- _ => rewrite H
                 end;
          cbn [bind fold_left scan_disjunction scan_conditional no_roles
               item2 disjunction_tree conditional_tree1 conditional_tree2]).

(** C7, as the code has it: for a disjunction [A|B] with [A] and [B]
    different and implications [A->P] and [B->Q], [dilemma] returns the same
    conclusion, the text of [P|Q], in all six orders of its arguments. *)
Theorem dilemma_permutations (d x y : premise) (a b p q : operand) :
  get_tree d = Ok (Bin Or a b) ->
  get_tree x = Ok (Bin Implies a p) ->
  get_tree y = Ok (Bin Implies b q) ->
  a <> b ->
  dilemma d x y = Ok (recover_formula (Bin Or p q))
  /\ dilemma d y x = Ok (recover_formula (Bin Or p q))
  /\ dilemma x d y = Ok (recover_formula (Bin Or p q))
  /\ dilemma x y d = Ok (recover_formula (Bin Or p q))
  /\ dilemma y d x = Ok (recover_formula (Bin Or p q))
  /\ dilemma y x d = Ok (recover_formula (Bin Or p q)).
Proof.
  intros Hd Hx Hy Hab.
  assert (E : operand_eqb b a = false)
    by (apply operand_eqb_neq; congruence).
  repeat match goal with |- _ /\ _ => split end; run_dilemma; reflexivity.
Qed.

End Facts.

(** ** The rules on the reference parser and printer *)

(** The doctests of [rule.py]. *)

Example doctest_modus_ponens :
  modus_ponens (lp := Service.reference) (Text "(a&c)->~d") (Text "a&c")
  = Ok "~d"
  /\ modus_ponens (lp := Service.reference)
       (Text "~(d|c)->(p&~q)") (Text "~(d|c)") = Ok "p&~q"
  /\ modus_ponens (lp := Service.reference) (Text "a") (Text "a->b") = Ok "b".
Proof. repeat split; vm_compute; reflexivity. Qed.

Example doctest_is_modus_ponens :
  is_modus_ponens (lp := Service.reference)
    (Text "(~a&b)->c") (Text "~a&b") (Text "c") = Ok true
  /\ is_modus_ponens (lp := Service.reference)
       (Text "~(p|q)->(c<->d)") (Text "~(p|q)") (Text "c<->d") = Ok true
  /\ is_modus_ponens (lp := Service.reference)
       (Text "a->b") (Text "~a") (Text "b") = Ok false.
Proof. repeat split; vm_compute; reflexivity. Qed.

Example doctest_modus_tollens :
  modus_tollens (lp := Service.reference) (Text "(a&c)->~d") (Text "~~d")
  = Ok "~(a&c)"
  /\ modus_tollens (lp := Service.reference)
       (Text "~(d|c)->(p&~q)") (Text "~(p&~q)") = Ok "~~(d|c)"
  /\ modus_tollens (lp := Service.reference) (Text "~b") (Text "a->b")
     = Ok "~a".
Proof. repeat split; vm_compute; reflexivity. Qed.

Example doctest_is_modus_tollens :
  is_modus_tollens (lp := Service.reference)
    (Text "(~a&b)->c") (Text "~c") (Text "~(~a&b)") = Ok true
  /\ is_modus_tollens (lp := Service.reference)
       (Text "a->b") (Text "b") (Text "a") = Ok false.
Proof. repeat split; vm_compute; reflexivity. Qed.

Example doctest_chain_implication :
  chain_implication (lp := Service.reference)
    (Text "(a&c)->~d") (Text "~d->(b|d)") = Ok "(a&c)->(b|d)"
  /\ chain_implication (lp := Service.reference)
       (Text "~(d|c)->(p&~q)") (Text "(p&~q)->a") = Ok "~(d|c)->a"
  /\ chain_implication (lp := Service.reference) (Text "b->c") (Text "a->b")
     = Ok "a->c".
Proof. repeat split; vm_compute; reflexivity. Qed.

Example doctest_is_chain_implication :
  is_chain_implication (lp := Service.reference)
    (Text "(~a&b)->c") (Text "c->~(d|a)") (Text "(~a&b)->~(d|a)") = Ok true
  /\ is_chain_implication (lp := Service.reference)
       (Text "a->b") (Text "b->c") (Text "c") = Ok false.
Proof. repeat split; vm_compute; reflexivity. Qed.

Example doctest_dilemma :
  dilemma (lp := Service.reference)
    (Text "(a&c)|~d") (Text "~d->(b|d)") (Text "(a&c)->(p&q)")
  = Ok "(p&q)|(b|d)"
  /\ dilemma (lp := Service.reference)
       (Text "~(d|c)|(p&~q)") (Text "(p&~q)->a") (Text "~(d|c)->c")
     = Ok "c|a"
  /\ dilemma (lp := Service.reference)
       (Text "b|c") (Text "b->p") (Text "c->q") = Ok "p|q".
Proof. repeat split; vm_compute; reflexivity. Qed.

Example doctest_is_dilemma :
  is_dilemma (lp := Service.reference)
    (Text "(~a&b)|c") (Text "c->~(d|a)") (Text "(~a&b)->~p")
    (Text "~p|~(d|a)") = Ok true
  /\ is_dilemma (lp := Service.reference)
       (Text "a|b") (Text "b->c") (Text "a->d") (Text "c|d") = Ok false.
Proof. repeat split; vm_compute; reflexivity. Qed.

Example doctest_disjunction_elim :
  disjunction_elim (lp := Service.reference) (Text "(a&c)|~d") (Text "~~d")
  = Ok "a&c"
  /\ disjunction_elim (lp := Service.reference)
       (Text "~(d|c)|(p&~q)") (Text "~(p&~q)") = Ok "~(d|c)"
  /\ disjunction_elim (lp := Service.reference) (Text "~a") (Text "a|b")
     = Ok "b".
Proof. repeat split; vm_compute; reflexivity. Qed.

Example doctest_is_disjunction_elim :
  is_disjunction_elim (lp := Service.reference)
    (Text "(~a&b)|c") (Text "~c") (Text "~a&b") = Ok true
  /\ is_disjunction_elim (lp := Service.reference)
       (Text "a|b") (Text "b") (Text "a") = Ok false.
Proof. repeat split; vm_compute; reflexivity. Qed.

Example doctest_disjunction_intro :
  disjunction_intro (lp := Service.reference) (Text "a->b") (Text "~c") "right"
  = Ok "(a->b)|~c"
  /\ disjunction_intro (lp := Service.reference)
       (Text "p<->~q") (Text "p&r") "right" = Ok "(p<->~q)|(p&r)"
  /\ disjunction_intro (lp := Service.reference)
       (Text "p<->~q") (Text "p&r") "left" = Ok "(p&r)|(p<->~q)".
Proof. repeat split; vm_compute; reflexivity. Qed.

Example doctest_is_disjunction_intro :
  is_disjunction_intro (lp := Service.reference)
    (Text "(a->~b)") (Text "(a->~b)|(d&e)") = Ok true
  /\ is_disjunction_intro (lp := Service.reference)
       (Text "~(p&q)") (Text "(p->~q)|~(p&q)") = Ok true
  /\ is_disjunction_intro (lp := Service.reference)
       (Text "~(p&q)") (Text "~((p&q)|r)") = Ok false.
Proof. repeat split; vm_compute; reflexivity. Qed.

Example doctest_conjunction_elim :
  conjunction_elim (lp := Service.reference) (Text "(a&c)&~d") "right"
  = Ok "~d"
  /\ conjunction_elim (lp := Service.reference) (Text "~(d|c)&(p&~q)") "left"
     = Ok "~(d|c)"
  /\ conjunction_elim (lp := Service.reference) (Text "a&b") "right" = Ok "b".
Proof. repeat split; vm_compute; reflexivity. Qed.

Example doctest_is_conjunction_elim :
  is_conjunction_elim (lp := Service.reference)
    (Text "(a->~b)&(d&e)") (Text "(a->~b)") = Ok true
  /\ is_conjunction_elim (lp := Service.reference)
       (Text "(p->~q)&~(p&q)") (Text "~(p&q)") = Ok true.
Proof. repeat split; vm_compute; reflexivity. Qed.

Example doctest_conjunction_intro :
  conjunction_intro (lp := Service.reference) (Text "a->b") (Text "~c")
  = Ok "(a->b)&~c"
  /\ conjunction_intro (lp := Service.reference) (Text "p<->~q") (Text "p&r")
     = Ok "(p<->~q)&(p&r)"
  /\ conjunction_intro (lp := Service.reference) (Text "p&r") (Text "p<->~q")
     = Ok "(p&r)&(p<->~q)".
Proof. repeat split; vm_compute; reflexivity. Qed.

Example doctest_is_conjunction_intro :
  is_conjunction_intro (lp := Service.reference)
    (Text "(a->~b)") (Text "(d&e)") (Text "(a->~b)&(d&e)") = Ok true
  /\ is_conjunction_intro (lp := Service.reference)
       (Text "~(p&q)") (Text "p->~q") (Text "(p->~q)&~(p&q)") = Ok true
  /\ is_conjunction_intro (lp := Service.reference)
       (Text "~(p&q)") (Text "r") (Text "~((p&q)&r)") = Ok false.
Proof. repeat split; vm_compute; reflexivity. Qed.

(** The reference printer prints a lone variable as its name. *)
Lemma canonical_single (s : string) :
  recover_formula (logicparser := Service.reference) (Single s) = s.
Proof. reflexivity. Qed.

(** The theorems at concrete premises. *)

Lemma modus_ponens_spec_witness :
  modus_ponens (lp := Service.reference) (Text "a") (Text "a->b") = Ok "b".
Proof.
  refine (proj1
            (@modus_ponens_spec Service.reference (Text "a") (Text "a->b")
               (Single "a") (Bin Implies (Str "a") (Str "b"))
               (Bin Implies (Str "a") (Str "b")) (Single "a") _ _ _ _)
            (Str "a") (Str "b") eq_refl _).
  - intro s; reflexivity.
  - reflexivity.
  - reflexivity.
  - right; simpl; repeat split; lia.
  - right; exists "a"; split; reflexivity.
Defined.

Lemma inapplicable_rule_checks_false_witness :
  is_modus_ponens (lp := Service.reference)
    (Text "a->b") (Text "~a") (Text "b") = Ok false.
Proof.
  refine (proj1
            (@inapplicable_rule_checks_false Service.reference
               (Text "a->b") (Text "~a") (Text "a") (Text "b") (Single "b")
               _ _) _).
  - reflexivity.
  - simpl; discriminate.
  - vm_compute; reflexivity.
Defined.

Lemma syntax_error_propagates_witness :
  is_modus_ponens (lp := Service.reference)
    (Text "a->b") (Text "a") (Text "(b") = Raise SyntaxError.
Proof.
  refine (proj1
            (proj1
               (proj2 (proj2 (proj2
                  (@syntax_error_propagates Service.reference
                     (Text "a->b") (Text "a") (Text "a") (Text "(b")
                     "right"))))
               _)).
  right; right; vm_compute; reflexivity.
Defined.

Lemma bad_side_after_parsing_witness :
  disjunction_intro (lp := Service.reference) (Text "a") (Text "b") "middle"
  = Raise ValueError.
Proof.
  refine (proj1
            (@bad_side_after_parsing Service.reference (Text "a") (Text "b")
               "middle" _ _)
            (Single "a") (Single "b") _ _).
  - discriminate.
  - discriminate.
  - reflexivity.
  - reflexivity.
Defined.

Lemma chain_implication_swap_witness :
  chain_implication (lp := Service.reference) (Text "a->b") (Text "b->c")
  = chain_implication (lp := Service.reference) (Text "b->c") (Text "a->b").
Proof.
  refine (@chain_implication_swap Service.reference
            (Text "a->b") (Text "b->c") (Str "a") (Str "b") (Str "b") (Str "c")
            _ _ _).
  - reflexivity.
  - reflexivity.
  - intros _ H; discriminate H.
Defined.

Lemma dilemma_single_disjunction_witness :
  In (Bin Or (Str "b") (Str "c"))
     [Bin Or (Str "b") (Str "c"); Bin Implies (Str "b") (Str "p");
      Bin Implies (Str "c") (Str "q")]
  /\ Str "b" <> Str "c"
  /\ exists p q,
       In (Bin Implies (Str "b") p)
          [Bin Or (Str "b") (Str "c"); Bin Implies (Str "b") (Str "p");
           Bin Implies (Str "c") (Str "q")]
       /\ In (Bin Implies (Str "c") q)
          [Bin Or (Str "b") (Str "c"); Bin Implies (Str "b") (Str "p");
           Bin Implies (Str "c") (Str "q")]
       /\ Bin Implies (Str "b") p <> Bin Implies (Str "c") q
       /\ "p|q"
          = recover_formula (logicparser := Service.reference) (Bin Or p q).
Proof.
  refine (@dilemma_single_disjunction Service.reference
            (Text "b|c") (Text "b->p") (Text "c->q")
            (Bin Or (Str "b") (Str "c"))
            (Bin Implies (Str "b") (Str "p"))
            (Bin Implies (Str "c") (Str "q"))
            (Str "b") (Str "c") "p|q" _ _ _ _ _).
  - reflexivity.
  - reflexivity.
  - reflexivity.
  - intros d Hd [l [r Hor]]; simpl in Hd.
    destruct Hd as [<- | [<- | [<- | []]]];
      [reflexivity | discriminate Hor | discriminate Hor].
  - vm_compute; reflexivity.
Defined.

Lemma dilemma_permutations_witness :
  dilemma (lp := Service.reference) (Text "c->q") (Text "b->p") (Text "b|c")
  = Ok (recover_formula (logicparser := Service.reference)
          (Bin Or (Str "p") (Str "q"))).
Proof.
  refine (proj2 (proj2 (proj2 (proj2 (proj2
            (@dilemma_permutations Service.reference
               (Text "b|c") (Text "b->p") (Text "c->q")
               (Str "b") (Str "c") (Str "p") (Str "q") _ _ _ _)))))).
  - reflexivity.
  - reflexivity.
  - reflexivity.
  - intro H; discriminate H.
Defined.

Lemma disjunction_elim_spec_witness :
  disjunction_elim (lp := Service.reference) (Text "~a") (Text "a|b") = Ok "b".
Proof.
  refine (proj1
            (@disjunction_elim_spec Service.reference
               (Text "~a") (Text "a|b")
               (Neg (Str "a")) (Bin Or (Str "a") (Str "b"))
               (Bin Or (Str "a") (Str "b")) (Neg (Str "a")) _ _ _ _)
            (Str "a") (Str "b") eq_refl eq_refl).
  - intro s; reflexivity.
  - reflexivity.
  - reflexivity.
  - right; simpl; repeat split; lia.
Defined.

Lemma conjunction_intro_check_witness :
  conjunction_intro (lp := Service.reference) (Text "a") (Text "b")
  = Ok (recover_formula (logicparser := Service.reference)
          (Bin And (Lst (Single "a")) (Lst (Single "b")))).
Proof.
  refine (proj1
            (@conjunction_intro_check Service.reference
               (Text "a") (Text "b") (Text "b&a")
               (Single "a") (Single "b") (Bin And (Str "b") (Str "a"))
               _ _ _)).
  - reflexivity.
  - reflexivity.
  - reflexivity.
Defined.

Lemma equal_length_second_is_primary_witness :
  modus_ponens (lp := Service.reference) (Text "a->b") (Text "~~~a")
  = modus_ponens_form (lp := Service.reference)
      (Neg (Lst (Neg (Lst (Neg (Str "a")))))) (Bin Implies (Str "a") (Str "b"))
      "a->b".
Proof.
  refine (proj1
            (@equal_length_second_is_primary Service.reference
               (Text "a->b") (Text "~~~a")
               (Bin Implies (Str "a") (Str "b"))
               (Neg (Lst (Neg (Lst (Neg (Str "a")))))) _ _ _)).
  - reflexivity.
  - reflexivity.
  - reflexivity.
Defined.

(** Inputs on which the code departs from the specification. *)

(** C4: with a malformed premise and a bad [side], both functions raise
    [SyntaxError], not [ValueError]: the premise is parsed first. *)
Lemma bad_side_malformed_premise :
  disjunction_intro (lp := Service.reference) (Text "(a") (Text "b") "middle"
  = Raise SyntaxError
  /\ disjunction_intro (lp := Service.reference) (Text "(a") (Text "b") "middle"
     <> Raise ValueError
  /\ conjunction_elim (lp := Service.reference) (Text "(a") "middle"
     = Raise SyntaxError
  /\ conjunction_elim (lp := Service.reference) (Text "(a") "middle"
     <> Raise ValueError.
Proof. repeat split; vm_compute; (reflexivity || discriminate). Qed.

(** C5: for the converses [a->b] and [b->a] the rule applies in both
    orders and the conclusions differ. *)
Lemma chain_implication_converses :
  chain_implication (lp := Service.reference) (Text "a->b") (Text "b->a")
  = Ok "a->a"
  /\ chain_implication (lp := Service.reference) (Text "b->a") (Text "a->b")
     = Ok "b->b"
  /\ chain_implication (lp := Service.reference) (Text "a->b") (Text "b->a")
     <> chain_implication (lp := Service.reference) (Text "b->a") (Text "a->b").
Proof. repeat split; vm_compute; (reflexivity || discriminate). Qed.

(** C6: [dilemma] on the premises [a|b], [c|a] and [a->p] returns the
    conclusion [p|p], although two premises are disjunctions and one
    implication only is among them: the loops keep [a->p] as the first
    conditional, found from the left child of [a|b], while they take it as
    the second conditional from the right child of [c|a]. *)
Lemma dilemma_two_disjunctions :
  get_tree (lp := Service.reference) (Text "a|b")
  = Ok (Bin Or (Str "a") (Str "b"))
  /\ get_tree (lp := Service.reference) (Text "c|a")
     = Ok (Bin Or (Str "c") (Str "a"))
  /\ get_tree (lp := Service.reference) (Text "a->p")
     = Ok (Bin Implies (Str "a") (Str "p"))
  /\ dilemma (lp := Service.reference) (Text "a|b") (Text "c|a") (Text "a->p")
     = Ok "p|p".
Proof. repeat split; vm_compute; reflexivity. Qed.

(** C7: for the disjunction [a|a] and the implications [a->p] and [a->q]
    [dilemma] returns no conclusion, in any order of its arguments: both
    implications are taken from the left child and none from the right. *)
Lemma dilemma_equal_disjuncts :
  get_tree (lp := Service.reference) (Text "a|a")
  = Ok (Bin Or (Str "a") (Str "a"))
  /\ get_tree (lp := Service.reference) (Text "a->p")
     = Ok (Bin Implies (Str "a") (Str "p"))
  /\ get_tree (lp := Service.reference) (Text "a->q")
     = Ok (Bin Implies (Str "a") (Str "q"))
  /\ dilemma (lp := Service.reference) (Text "a|a") (Text "a->p") (Text "a->q")
     = Raise Exception
  /\ dilemma (lp := Service.reference) (Text "a|a") (Text "a->q") (Text "a->p")
     = Raise Exception
  /\ dilemma (lp := Service.reference) (Text "a->p") (Text "a|a") (Text "a->q")
     = Raise Exception
  /\ dilemma (lp := Service.reference) (Text "a->p") (Text "a->q") (Text "a|a")
     = Raise Exception
  /\ dilemma (lp := Service.reference) (Text "a->q") (Text "a|a") (Text "a->p")
     = Raise Exception
  /\ dilemma (lp := Service.reference) (Text "a->q") (Text "a->p") (Text "a|a")
     = Raise Exception.
Proof. repeat split; vm_compute; reflexivity. Qed.

(** [conjunction_intro] depends on the order of its arguments, its check
    does not. *)
Example conjunction_intro_order :
  conjunction_intro (lp := Service.reference) (Text "A") (Text "B") = Ok "A&B"
  /\ conjunction_intro (lp := Service.reference) (Text "B") (Text "A")
     = Ok "B&A"
  /\ is_conjunction_intro (lp := Service.reference)
       (Text "A") (Text "B") (Text "B&A") = Ok true.
Proof. repeat split; vm_compute; reflexivity. Qed.

(** ** The remaining rules and the checks *)

Section More.

Context {lp : logicparser}.

Ltac split_parse :=
  repeat match goal with
         | H : get_tree ?p = _ |- context [get_tree ?p] =>
             rewrite H; cbn [bind]
         | |- context [bind (get_tree ?p) _] =>
             let E := fresh "E" in
             destruct (get_tree_cases p) as [[? E] | E]; rewrite E; cbn [bind]
         end.

Lemma settled_not_syntax {A : Type} (r : result A) :
  settled r -> r <> Raise SyntaxError.
Proof. intros [[a ->] | ->]; discriminate. Qed.

Lemma try_pass_settled {A : Type} (r : result A) (d : A) :
  settled r -> exists a, try_pass r d = Ok a.
Proof. intros [[a ->] | ->]; simpl; eauto. Qed.

Lemma modus_ponens_form_settled c o a : settled (modus_ponens_form c o a).
Proof.
  unfold modus_ponens_form, settled.
  destruct c as [s | x | [] l r]; auto.
  destruct (match l with Str s => _ | Lst t => _ end); eauto.
Qed.

Lemma modus_tollens_form_settled c n : settled (modus_tollens_form c n).
Proof.
  unfold modus_tollens_form, settled.
  destruct c as [s | x | [] l r]; auto; destruct n as [s | x | o l' r']; auto.
  destruct (tree_eqb _ _); eauto.
Qed.

Lemma disjunction_elim_form_settled d n : settled (disjunction_elim_form d n).
Proof.
  unfold disjunction_elim_form, settled.
  destruct d as [s | x | [] l r]; auto.
  destruct (tree_eqb n (Neg l)); eauto.
  destruct (tree_eqb n (Neg r)); eauto.
Qed.

Lemma modus_ponens_settled p1 p2 t0 t1 :
  get_tree p1 = Ok t0 -> get_tree p2 = Ok t1 -> settled (modus_ponens p1 p2).
Proof.
  intros H0 H1; unfold modus_ponens; rewrite H0, H1; cbn [bind].
  destruct (Nat.ltb _ _); apply modus_ponens_form_settled.
Qed.

Lemma modus_tollens_settled p1 p2 t0 t1 :
  get_tree p1 = Ok t0 -> get_tree p2 = Ok t1 -> settled (modus_tollens p1 p2).
Proof.
  intros H0 H1; unfold modus_tollens; rewrite H0, H1; cbn [bind].
  destruct (Nat.ltb _ _); apply modus_tollens_form_settled.
Qed.

Lemma disjunction_elim_settled p1 p2 t0 t1 :
  get_tree p1 = Ok t0 -> get_tree p2 = Ok t1 ->
  settled (disjunction_elim p1 p2).
Proof.
  intros H0 H1; unfold disjunction_elim; rewrite H0, H1; cbn [bind].
  destruct (Nat.ltb _ _); apply disjunction_elim_form_settled.
Qed.

Lemma chain_implication_settled p1 p2 t0 t1 :
  get_tree p1 = Ok t0 -> get_tree p2 = Ok t1 ->
  settled (chain_implication p1 p2).
Proof.
  intros H0 H1; unfold chain_implication, settled; rewrite H0, H1; cbn [bind].
  destruct t0 as [s | x | [] l r]; auto;
    destruct t1 as [s' | x' | [] l' r']; auto.
  destruct (operand_eqb r l'); eauto.
  destruct (operand_eqb r' l); eauto.
Qed.

Lemma dilemma_settled p1 p2 p3 t1 t2 t3 :
  get_tree p1 = Ok t1 -> get_tree p2 = Ok t2 -> get_tree p3 = Ok t3 ->
  settled (dilemma p1 p2 p3).
Proof.
  intros H1 H2 H3; rewrite (dilemma_parsed _ _ _ _ _ _ H1 H2 H3).
  pose proof (scan_sound [t1; t2; t3]) as Hst.
  set (st := fold_left (scan_disjunction [t1; t2; t3]) [t1; t2; t3] no_roles)
    in *.
  clearbody st; destruct Hst as (_ & Hc1 & Hc2).
  destruct st as [[d |] [c1 |] [c2 |]];
    cbn [disjunction_tree conditional_tree1 conditional_tree2] in *;
    try (right; reflexivity).
  destruct (Hc1 c1 eq_refl) as (_ & al & ar & p & _ & ->).
  destruct (Hc2 c2 eq_refl) as (_ & bl & br & q & _ & -> & _).
  left; simpl; eauto.
Qed.

Lemma conjunction_elim_parsed p t side :
  get_tree p = Ok t ->
  conjunction_elim p side <> Raise SyntaxError.
Proof.
  intro H; unfold conjunction_elim; rewrite H; cbn [bind].
  destruct (negb _ && negb _); [discriminate |].
  destruct t as [s | x | [] l r]; try discriminate.
  destruct (String.eqb side "right"); discriminate.
Qed.

Lemma conjunction_elim_settled p t side :
  get_tree p = Ok t -> side = "right" \/ side = "left" ->
  settled (conjunction_elim p side).
Proof.
  intros H Hs; unfold conjunction_elim, settled; rewrite H; cbn [bind].
  destruct Hs as [-> | ->]; simpl;
    destruct t as [s | x | [] l r]; eauto.
Qed.

Lemma disjunction_intro_parsed p1 p2 t1 t2 side :
  get_tree p1 = Ok t1 -> get_tree p2 = Ok t2 ->
  disjunction_intro p1 p2 side <> Raise SyntaxError.
Proof.
  intros H1 H2; unfold disjunction_intro; rewrite H1, H2; cbn [bind].
  destruct (negb _); [discriminate |].
  destruct (String.eqb side "left"); discriminate.
Qed.

Lemma has_op_dec o t : has_op o t \/ ~ has_op o t.
Proof.
  destruct t as [s | x | o' l r];
    try (right; intros (l' & r' & [=]); fail).
  destruct (binop_eq_dec o' o) as [-> | Hn].
  - left; red; eauto.
  - right; intros (l' & r' & [= H _ _]); congruence.
Qed.

Lemma conjunction_elim_and p l r :
  get_tree p = Ok (Bin And l r) ->
  conjunction_elim p "right" = Ok (operand_text r)
  /\ conjunction_elim p "left" = Ok (operand_text l).
Proof.
  intro H; unfold conjunction_elim; rewrite H; split; reflexivity.
Qed.

Lemma conjunction_elim_other p t :
  get_tree p = Ok t ->
  ~ has_op And t ->
  conjunction_elim p "right" = Raise Exception
  /\ conjunction_elim p "left" = Raise Exception.
Proof.
  intros H Hn; unfold conjunction_elim; rewrite H; cbn [bind].
  destruct t as [s | x | [] l r]; try (split; reflexivity).
  exfalso; apply Hn; red; eauto.
Qed.

Lemma is_disjunction_intro_parsed p c t ct :
  get_tree p = Ok t -> get_tree c = Ok ct ->
  exists b, is_disjunction_intro p c = Ok b.
Proof.
  intros Hp Hc; unfold is_disjunction_intro; rewrite Hp, Hc; cbn [bind].
  destruct ct as [s | x | [] l r]; eauto.
Qed.

Lemma is_conjunction_elim_parsed p c t ct :
  get_tree p = Ok t -> get_tree c = Ok ct ->
  exists b, is_conjunction_elim p c = Ok b.
Proof.
  intros Hp Hc; unfold is_conjunction_elim; rewrite Hc; cbn [bind].
  destruct (has_op_dec And t) as [(l & r & ->) | Hn].
  - destruct (conjunction_elim_and p l r Hp) as [-> ->].
    cbn [bind try_pass fst snd]; eauto.
  - destruct (conjunction_elim_other p t Hp Hn) as [-> _].
    cbn [bind try_pass fst snd]; eauto.
Qed.

Lemma is_conjunction_intro_parsed p1 p2 c t1 t2 ct :
  get_tree p1 = Ok t1 -> get_tree p2 = Ok t2 -> get_tree c = Ok ct ->
  exists b, is_conjunction_intro p1 p2 c = Ok b.
Proof.
  intros H1 H2 Hc; unfold is_conjunction_intro, conjunction_intro.
  rewrite H1, H2, Hc; cbn [bind]; eauto.
Qed.

Lemma conjunction_intro_parsed p1 p2 t1 t2 :
  get_tree p1 = Ok t1 -> get_tree p2 = Ok t2 ->
  exists s, conjunction_intro p1 p2 = Ok s.
Proof.
  intros H1 H2; unfold conjunction_intro; rewrite H1, H2; cbn [bind]; eauto.
Qed.

(** The shape of every check that compares the text of the conclusion
    with the result of its rule. *)
Lemma check_true_iff (body : result string) (ct : tree) :
  recover_formula ct <> "" ->
  (actual_conclusion <- try_pass body "" ;;
   Ok (String.eqb actual_conclusion (recover_formula ct))) = Ok true
  <-> body = Ok (recover_formula ct).
Proof.
  intro Hne; destruct body as [a | []]; cbn [try_pass bind];
    try rewrite (eqb_empty _ Hne);
    try (split; discriminate).
  split.
  - intros [= H]; apply String.eqb_eq in H; congruence.
  - intros [= ->]; rewrite String.eqb_refl; reflexivity.
Qed.

Lemma check_settled (body : result string) (ct : tree) :
  settled body ->
  exists b,
    (actual_conclusion <- try_pass body "" ;;
     Ok (String.eqb actual_conclusion (recover_formula ct))) = Ok b.
Proof. intros [[a ->] | ->]; cbn [try_pass bind]; eauto. Qed.

(** *** Modus tollens, chain implication, conjunction elimination *)

(** X1: when both premises parse, [modus_tollens] takes the premise with
    the longer text as the conditional (the second one when neither is
    longer).  If it is an implication and the other premise is the negation
    of its right child, the result is the text of the negation of its left
    child; in every other case the rule raises its [Exception]. *)
Theorem modus_tollens_spec (p1 p2 : premise) (t0 t1 c n : tree) :
  get_tree p1 = Ok t0 ->
  get_tree p2 = Ok t1 ->
  primary_role t0 t1 c n ->
  (forall l r, c = Bin Implies l r -> n = Neg r ->
     modus_tollens p1 p2 = Ok (recover_formula (Neg l)))
  /\ ((forall l r, c = Bin Implies l r -> n <> Neg r) ->
      modus_tollens p1 p2 = Raise Exception).
Proof.
  intros H0 H1 Hrole.
  assert (E : modus_tollens p1 p2 = modus_tollens_form c n).
  { unfold modus_tollens; rewrite H0, H1; cbn [bind].
    apply primary_role_cases in Hrole.
    destruct Hrole as [(-> & -> & ->) | (-> & -> & ->)]; reflexivity. }
  rewrite E; unfold modus_tollens_form; split.
  - intros l r -> ->; rewrite tree_eqb_refl; reflexivity.
  - intro H; destruct c as [s | x | [] l r]; try reflexivity.
    destruct n as [s | x | o l' r']; try reflexivity.
    rewrite (tree_eqb_neq _ _ (H l r eq_refl)); reflexivity.
Qed.

(** X2: when both premises parse, [chain_implication] needs two
    implications.  If the right child of the first is the left child of the
    second, the result is the text of the implication from the first's left
    child to the second's right child; otherwise, if the right child of the
    second is the left child of the first, the result chains the other way
    round; in every other case the rule raises its [Exception]. *)
Theorem chain_implication_spec (p1 p2 : premise) (t1 t2 : tree) :
  get_tree p1 = Ok t1 ->
  get_tree p2 = Ok t2 ->
  (forall l1 r1 l2 r2,
     t1 = Bin Implies l1 r1 -> t2 = Bin Implies l2 r2 ->
     (r1 = l2 ->
        chain_implication p1 p2 = Ok (recover_formula (Bin Implies l1 r2)))
     /\ (r1 <> l2 -> r2 = l1 ->
           chain_implication p1 p2
           = Ok (recover_formula (Bin Implies l2 r1)))
     /\ (r1 <> l2 -> r2 <> l1 ->
           chain_implication p1 p2 = Raise Exception))
  /\ (~ has_op Implies t1 \/ ~ has_op Implies t2 ->
      chain_implication p1 p2 = Raise Exception).
Proof.
  intros H1 H2; unfold chain_implication; rewrite H1, H2; cbn [bind]; split.
  - intros l1 r1 l2 r2 -> ->; repeat split.
    + intros ->; rewrite operand_eqb_refl; reflexivity.
    + intros Hn ->; rewrite (operand_eqb_neq _ _ Hn), operand_eqb_refl.
      reflexivity.
    + intros Hn Hm.
      rewrite (operand_eqb_neq _ _ Hn), (operand_eqb_neq _ _ Hm).
      reflexivity.
  - intros [H | H];
      destruct t1 as [s | x | [] l r]; try reflexivity;
      destruct t2 as [s' | x' | [] l' r']; try reflexivity;
      exfalso; apply H; red; eauto.
Qed.

(** X3: when the premise parses and [side] is ['right'] or ['left'],
    [conjunction_elim] returns the text of that child of a conjunction (the
    name of a child that is a variable, the printed text of any other), and
    raises its [Exception] for a premise that is not a conjunction. *)
Theorem conjunction_elim_spec (p : premise) (t : tree) :
  get_tree p = Ok t ->
  (forall l r, t = Bin And l r ->
     conjunction_elim p "right" = Ok (operand_text r)
     /\ conjunction_elim p "left" = Ok (operand_text l))
  /\ (~ has_op And t ->
      conjunction_elim p "right" = Raise Exception
      /\ conjunction_elim p "left" = Raise Exception).
Proof.
  intro H; unfold conjunction_elim; rewrite H; cbn [bind]; split.
  - intros l r ->; split; reflexivity.
  - intro Hn; destruct t as [s | x | [] l r]; try (split; reflexivity).
    exfalso; apply Hn; red; eauto.
Qed.

(** *** Disjunction introduction *)

(** X4: adding a statement on the left of a premise is adding the premise
    on the right of the statement; this holds for all arguments, malformed
    ones included. *)
Theorem disjunction_intro_left_right (p s : premise) :
  disjunction_intro p s "left" = disjunction_intro s p "right".
Proof.
  unfold disjunction_intro.
  destruct (get_tree_cases p) as [[t Ep] | Ep];
    destruct (get_tree_cases s) as [[u Es] | Es];
    rewrite Ep, Es; reflexivity.
Qed.

(** X5: when premise and conclusion parse, [is_disjunction_intro] returns
    a boolean, and it is [true] exactly when the conclusion is a disjunction
    one of whose children is the premise: the same tree, or, for a premise
    that is a lone variable, the variable's name. *)
Theorem is_disjunction_intro_spec (p c : premise) (t ct : tree) :
  get_tree p = Ok t ->
  get_tree c = Ok ct ->
  exists b,
    is_disjunction_intro p c = Ok b
    /\ (b = true <->
        exists l r, ct = Bin Or l r /\ (l = as_operand t \/ r = as_operand t)).
Proof.
  intros Hp Hc; unfold is_disjunction_intro; rewrite Hp, Hc; cbn [bind].
  fold (as_operand t).
  destruct ct as [s | x | [] l r];
    try (exists false; split; [reflexivity |];
         split; [discriminate | intros (l' & r' & [=] & _)]).
  eexists; split; [reflexivity |].
  rewrite Bool.orb_true_iff, !tree_eqb_eq; split.
  - intros [[= H] | [= H]]; eauto.
  - intros (l' & r' & [= <- <-] & [H | H]); [left | right]; congruence.
Qed.

(** *** The checks *)

(** X6: for a conclusion that parses, with a text that is not empty, each
    check built on a rule returns [true] exactly when the rule applied to
    the premises returns the text of the conclusion. *)
Theorem check_true_iff_rule (p1 p2 p3 c : premise) (ct : tree) :
  get_tree c = Ok ct ->
  recover_formula ct <> "" ->
  (is_modus_ponens p1 p2 c = Ok true
   <-> modus_ponens p1 p2 = Ok (recover_formula ct))
  /\ (is_modus_tollens p1 p2 c = Ok true
      <-> modus_tollens p1 p2 = Ok (recover_formula ct))
  /\ (is_chain_implication p1 p2 c = Ok true
      <-> chain_implication p1 p2 = Ok (recover_formula ct))
  /\ (is_dilemma p1 p2 p3 c = Ok true
      <-> dilemma p1 p2 p3 = Ok (recover_formula ct))
  /\ (is_disjunction_elim p1 p2 c = Ok true
      <-> disjunction_elim p1 p2 = Ok (recover_formula ct)).
Proof.
  intros Hc Hne.
  unfold is_modus_ponens, is_modus_tollens, is_chain_implication, is_dilemma,
    is_disjunction_elim.
  rewrite Hc; cbn [bind].
  repeat split; apply (check_true_iff _ ct Hne).
Qed.

(** X7: when premise and conclusion parse, [is_conjunction_elim] returns a
    boolean; for a conclusion whose text is not empty it is [true] exactly
    when the premise is a conjunction and the text of the conclusion is the
    text of its right or of its left child. *)
Theorem is_conjunction_elim_spec (p c : premise) (t ct : tree) :
  get_tree p = Ok t ->
  get_tree c = Ok ct ->
  recover_formula ct <> "" ->
  exists b,
    is_conjunction_elim p c = Ok b
    /\ (b = true <->
        exists l r,
          t = Bin And l r
          /\ (operand_text r = recover_formula ct
              \/ operand_text l = recover_formula ct)).
Proof.
  intros Hp Hc Hne; unfold is_conjunction_elim; rewrite Hc; cbn [bind].
  destruct (has_op_dec And t) as [(l & r & ->) | Hn].
  - destruct (conjunction_elim_and p l r Hp) as [-> ->].
    cbn [bind try_pass fst snd].
    eexists; split; [reflexivity |].
    rewrite Bool.orb_true_iff, !String.eqb_eq; split.
    + intros H; exists l, r; auto.
    + intros (l' & r' & [= <- <-] & H); exact H.
  - destruct (conjunction_elim_other p t Hp Hn) as [-> _].
    cbn [bind try_pass fst snd].
    exists false; rewrite (eqb_empty _ Hne); split; [reflexivity |].
    split; [discriminate |].
    intros (l & r & -> & _); exfalso; apply Hn; red; eauto.
Qed.

(** X8: a check whose formula arguments all parse returns a boolean: the
    exception of a rule that does not apply never leaves a check, and no
    check raises [ValueError]. *)
Theorem checks_return_bool (p1 p2 p3 c : premise) (t1 t2 t3 ct : tree) :
  get_tree p1 = Ok t1 ->
  get_tree p2 = Ok t2 ->
  get_tree p3 = Ok t3 ->
  get_tree c = Ok ct ->
  (exists b, is_modus_ponens p1 p2 c = Ok b)
  /\ (exists b, is_modus_tollens p1 p2 c = Ok b)
  /\ (exists b, is_chain_implication p1 p2 c = Ok b)
  /\ (exists b, is_dilemma p1 p2 p3 c = Ok b)
  /\ (exists b, is_disjunction_elim p1 p2 c = Ok b)
  /\ (exists b, is_disjunction_intro p1 c = Ok b)
  /\ (exists b, is_conjunction_elim p1 c = Ok b)
  /\ (exists b, is_conjunction_intro p1 p2 c = Ok b).
Proof.
  intros H1 H2 H3 Hc.
  unfold is_modus_ponens, is_modus_tollens, is_chain_implication, is_dilemma,
    is_disjunction_elim, is_disjunction_intro, is_conjunction_elim,
    is_conjunction_intro, conjunction_intro.
  rewrite Hc, H1, H2; cbn [bind].
  repeat match goal with |- _ /\ _ => split end.
  - apply check_settled; eapply modus_ponens_settled; eassumption.
  - apply check_settled; eapply modus_tollens_settled; eassumption.
  - apply check_settled; eapply chain_implication_settled; eassumption.
  - apply check_settled; eapply dilemma_settled; eassumption.
  - apply check_settled; eapply disjunction_elim_settled; eassumption.
  - destruct ct as [s | x | [] l r]; eauto.
  - destruct (has_op_dec And t1) as [(l & r & ->) | Hn].
    + destruct (conjunction_elim_and p1 l r H1) as [-> ->].
      cbn [bind try_pass fst snd]; eauto.
    + destruct (conjunction_elim_other p1 t1 H1 Hn) as [-> _].
      cbn [bind try_pass fst snd]; eauto.
  - eauto.
Qed.

(** X9: when the texts of the two premises differ in length, the order
    of the premises does not matter to [modus_ponens], [modus_tollens] and
    [disjunction_elim], nor to their checks. *)
Theorem unequal_length_symmetric (p1 p2 c : premise) (t0 t1 : tree) :
  get_tree p1 = Ok t0 ->
  get_tree p2 = Ok t1 ->
  String.length (recover_formula t0) <> String.length (recover_formula t1) ->
  modus_ponens p1 p2 = modus_ponens p2 p1
  /\ modus_tollens p1 p2 = modus_tollens p2 p1
  /\ disjunction_elim p1 p2 = disjunction_elim p2 p1
  /\ is_modus_ponens p1 p2 c = is_modus_ponens p2 p1 c
  /\ is_modus_tollens p1 p2 c = is_modus_tollens p2 p1 c
  /\ is_disjunction_elim p1 p2 c = is_disjunction_elim p2 p1 c.
Proof.
  intros H0 H1 Hlen.
  assert (Hmp : modus_ponens p1 p2 = modus_ponens p2 p1).
  { unfold modus_ponens; rewrite H0, H1; cbn [bind].
    destruct (Nat.ltb_spec (String.length (recover_formula t1))
                           (String.length (recover_formula t0)));
      destruct (Nat.ltb_spec (String.length (recover_formula t0))
                             (String.length (recover_formula t1)));
      try reflexivity; lia. }
  assert (Hmt : modus_tollens p1 p2 = modus_tollens p2 p1).
  { unfold modus_tollens; rewrite H0, H1; cbn [bind].
    destruct (Nat.ltb_spec (String.length (recover_formula t1))
                           (String.length (recover_formula t0)));
      destruct (Nat.ltb_spec (String.length (recover_formula t0))
                             (String.length (recover_formula t1)));
      try reflexivity; lia. }
  assert (Hde : disjunction_elim p1 p2 = disjunction_elim p2 p1).
  { unfold disjunction_elim; rewrite H0, H1; cbn [bind].
    destruct (Nat.ltb_spec (String.length (recover_formula t1))
                           (String.length (recover_formula t0)));
      destruct (Nat.ltb_spec (String.length (recover_formula t0))
                             (String.length (recover_formula t1)));
      try reflexivity; lia. }
  unfold is_modus_ponens, is_modus_tollens, is_disjunction_elim.
  rewrite Hmp, Hmt, Hde; repeat split; reflexivity.
Qed.

(** X10: [is_conjunction_intro] does not depend on the order of the
    premises, for all arguments, malformed ones included. *)
Theorem is_conjunction_intro_comm (p1 p2 c : premise) :
  is_conjunction_intro p1 p2 c = is_conjunction_intro p2 p1 c.
Proof.
  unfold is_conjunction_intro, conjunction_intro.
  destruct (get_tree_cases c) as [[ct Ec] | Ec];
    destruct (get_tree_cases p1) as [[t1 E1] | E1];
    destruct (get_tree_cases p2) as [[t2 E2] | E2];
    rewrite Ec, E1, E2; cbn [bind]; try reflexivity.
  rewrite Bool.orb_comm; reflexivity.
Qed.

(** *** What the errors and the results tell *)

Ltac not_syntax L :=
  let H := fresh in
  intro H; exfalso; revert H; apply settled_not_syntax; eapply L; eassumption.

Ltac check_not_syntax L :=
  let H := fresh in
  let b := fresh in
  intro H; exfalso; revert H;
  match goal with
  | |- bind (try_pass ?body _) _ = _ -> False =>
      let S := fresh in
      assert (S : settled body) by (eapply L; eassumption);
      destruct S as [[b ->] | ->]; discriminate
  end.

(** X11: a [SyntaxError] from a rule or from a check always comes from a
    malformed formula argument: with arguments that parse, none of the
    sixteen functions raises it, whatever [side] is. *)
Theorem syntax_error_only_from_parser (p1 p2 p3 c : premise) (side : string) :
  (modus_ponens p1 p2 = Raise SyntaxError -> malformed p1 \/ malformed p2)
  /\ (modus_tollens p1 p2 = Raise SyntaxError -> malformed p1 \/ malformed p2)
  /\ (chain_implication p1 p2 = Raise SyntaxError ->
      malformed p1 \/ malformed p2)
  /\ (disjunction_elim p1 p2 = Raise SyntaxError ->
      malformed p1 \/ malformed p2)
  /\ (disjunction_intro p1 p2 side = Raise SyntaxError ->
      malformed p1 \/ malformed p2)
  /\ (conjunction_intro p1 p2 = Raise SyntaxError ->
      malformed p1 \/ malformed p2)
  /\ (dilemma p1 p2 p3 = Raise SyntaxError ->
      malformed p1 \/ malformed p2 \/ malformed p3)
  /\ (conjunction_elim p1 side = Raise SyntaxError -> malformed p1)
  /\ (is_modus_ponens p1 p2 c = Raise SyntaxError ->
      malformed p1 \/ malformed p2 \/ malformed c)
  /\ (is_modus_tollens p1 p2 c = Raise SyntaxError ->
      malformed p1 \/ malformed p2 \/ malformed c)
  /\ (is_chain_implication p1 p2 c = Raise SyntaxError ->
      malformed p1 \/ malformed p2 \/ malformed c)
  /\ (is_disjunction_elim p1 p2 c = Raise SyntaxError ->
      malformed p1 \/ malformed p2 \/ malformed c)
  /\ (is_conjunction_intro p1 p2 c = Raise SyntaxError ->
      malformed p1 \/ malformed p2 \/ malformed c)
  /\ (is_dilemma p1 p2 p3 c = Raise SyntaxError ->
      malformed p1 \/ malformed p2 \/ malformed p3 \/ malformed c)
  /\ (is_disjunction_intro p1 c = Raise SyntaxError ->
      malformed p1 \/ malformed c)
  /\ (is_conjunction_elim p1 c = Raise SyntaxError ->
      malformed p1 \/ malformed c).
Proof.
  unfold malformed.
  destruct (get_tree_cases p1) as [[t1 E1] | E1]; [| tauto].
  destruct (get_tree_cases p2) as [[t2 E2] | E2];
    destruct (get_tree_cases p3) as [[t3 E3] | E3];
    destruct (get_tree_cases c) as [[ct Ec] | Ec];
    repeat match goal with |- _ /\ _ => split end;
    try tauto;
    unfold is_modus_ponens, is_modus_tollens, is_chain_implication,
      is_dilemma, is_disjunction_elim;
    try rewrite Ec; cbn [bind].
  all: try (not_syntax modus_ponens_settled).
  all: try (not_syntax modus_tollens_settled).
  all: try (not_syntax chain_implication_settled).
  all: try (not_syntax disjunction_elim_settled).
  all: try (not_syntax dilemma_settled).
  all: try (check_not_syntax modus_ponens_settled).
  all: try (check_not_syntax modus_tollens_settled).
  all: try (check_not_syntax chain_implication_settled).
  all: try (check_not_syntax disjunction_elim_settled).
  all: try (check_not_syntax dilemma_settled).
  all: try (intro H; exfalso; revert H;
            eapply disjunction_intro_parsed; eassumption).
  all: try (intro H; exfalso; revert H;
            eapply conjunction_elim_parsed; eassumption).
  all: intro H; exfalso.
  all: try (destruct (conjunction_intro_parsed p1 p2 t1 t2 E1 E2) as [b Hb];
            congruence).
  all: try (destruct (is_conjunction_intro_parsed p1 p2 c t1 t2 ct E1 E2 Ec)
              as [b Hb]; congruence).
  all: try (destruct (is_disjunction_intro_parsed p1 c t1 ct E1 Ec)
              as [b Hb]; congruence).
  all: destruct (is_conjunction_elim_parsed p1 c t1 ct E1 Ec) as [b Hb];
    congruence.
Qed.

Lemma modus_ponens_form_needs c o a s :
  modus_ponens_form c o a = Ok s -> has_op Implies c.
Proof.
  unfold modus_ponens_form; destruct c as [s' | x | [] l r];
    try discriminate; intros _; red; eauto.
Qed.

Lemma modus_tollens_form_needs c n s :
  modus_tollens_form c n = Ok s -> has_op Implies c /\ is_neg n.
Proof.
  unfold modus_tollens_form; destruct c as [s' | x | [] l r];
    try discriminate; destruct n as [s' | x | o l' r'];
    try discriminate; intros _; split; red; eauto.
Qed.

Lemma disjunction_elim_form_needs d n s :
  disjunction_elim_form d n = Ok s -> has_op Or d /\ is_neg n.
Proof.
  unfold disjunction_elim_form; destruct d as [s' | x | [] l r];
    try discriminate.
  destruct (tree_eqb n (Neg l)) eqn:El.
  - apply tree_eqb_eq in El; subst n; intros _; split; red; eauto.
  - destruct (tree_eqb n (Neg r)) eqn:Er; [| discriminate].
    apply tree_eqb_eq in Er; subst n; intros _; split; red; eauto.
Qed.

(** X12: a rule that returns a conclusion has found its connectives among
    the premises: [modus_ponens] an implication; [modus_tollens] an
    implication in one premise and a negation in the other;
    [chain_implication] two implications; [disjunction_elim] a disjunction
    in one premise and a negation in the other; [conjunction_elim] a
    conjunction. *)
Theorem success_needs_connective (p1 p2 : premise) (t0 t1 : tree)
    (side s : string) :
  get_tree p1 = Ok t0 ->
  get_tree p2 = Ok t1 ->
  (modus_ponens p1 p2 = Ok s -> has_op Implies t0 \/ has_op Implies t1)
  /\ (modus_tollens p1 p2 = Ok s ->
      (has_op Implies t0 /\ is_neg t1) \/ (has_op Implies t1 /\ is_neg t0))
  /\ (chain_implication p1 p2 = Ok s ->
      has_op Implies t0 /\ has_op Implies t1)
  /\ (disjunction_elim p1 p2 = Ok s ->
      (has_op Or t0 /\ is_neg t1) \/ (has_op Or t1 /\ is_neg t0))
  /\ (conjunction_elim p1 side = Ok s -> has_op And t0).
Proof.
  intros H0 H1.
  unfold modus_ponens, modus_tollens, chain_implication, disjunction_elim,
    conjunction_elim.
  rewrite H0, H1; cbn [bind].
  repeat match goal with |- _ /\ _ => split end.
  - destruct (Nat.ltb _ _); intro H; apply modus_ponens_form_needs in H; auto.
  - destruct (Nat.ltb _ _); intro H; apply modus_tollens_form_needs in H;
      auto.
  - destruct t0 as [s0 | x0 | [] l0 r0]; try discriminate;
      destruct t1 as [s1 | x1 | [] l1 r1]; try discriminate.
    intros _; split; red; eauto.
  - destruct (Nat.ltb _ _); intro H; apply disjunction_elim_form_needs in H;
      auto.
  - destruct (negb _ && negb _); [discriminate |].
    destruct t0 as [s0 | x0 | [] l0 r0]; try discriminate.
    intros _; red; eauto.
Qed.

End More.

(** These theorems at concrete premises. *)

Lemma modus_tollens_spec_witness :
  modus_tollens (lp := Service.reference) (Text "~b") (Text "a->b") = Ok "~a".
Proof.
  refine (proj1
            (@modus_tollens_spec Service.reference (Text "~b") (Text "a->b")
               (Neg (Str "b")) (Bin Implies (Str "a") (Str "b"))
               (Bin Implies (Str "a") (Str "b")) (Neg (Str "b")) _ _ _)
            (Str "a") (Str "b") eq_refl eq_refl).
  - reflexivity.
  - reflexivity.
  - right; simpl; repeat split; lia.
Defined.

Lemma chain_implication_spec_witness :
  chain_implication (lp := Service.reference) (Text "b->c") (Text "a->b")
  = Ok "a->c".
Proof.
  refine (proj1 (proj2
            (proj1
               (@chain_implication_spec Service.reference
                  (Text "b->c") (Text "a->b")
                  (Bin Implies (Str "b") (Str "c"))
                  (Bin Implies (Str "a") (Str "b")) _ _)
               (Str "b") (Str "c") (Str "a") (Str "b") eq_refl eq_refl))
            _ eq_refl).
  - reflexivity.
  - reflexivity.
  - intro H; discriminate H.
Defined.

Lemma conjunction_elim_spec_witness :
  conjunction_elim (lp := Service.reference) (Text "(a&c)&~d") "left"
  = Ok "a&c".
Proof.
  refine (proj2
            (proj1
               (@conjunction_elim_spec Service.reference (Text "(a&c)&~d")
                  (Bin And (Lst (Bin And (Str "a") (Str "c")))
                     (Lst (Neg (Str "d")))) _)
               _ _ eq_refl)).
  reflexivity.
Defined.

Lemma is_disjunction_intro_spec_witness :
  exists b,
    is_disjunction_intro (lp := Service.reference) (Text "a") (Text "b|a")
    = Ok b
    /\ (b = true <->
        exists l r,
          Bin Or (Str "b") (Str "a") = Bin Or l r
          /\ (l = as_operand (Single "a") \/ r = as_operand (Single "a"))).
Proof.
  refine (@is_disjunction_intro_spec Service.reference (Text "a") (Text "b|a")
            (Single "a") (Bin Or (Str "b") (Str "a")) _ _).
  - reflexivity.
  - reflexivity.
Defined.

Lemma check_true_iff_rule_witness :
  is_modus_ponens (lp := Service.reference)
    (Text "(~a&b)->c") (Text "~a&b") (Text "c") = Ok true.
Proof.
  refine (proj2
            (proj1
               (@check_true_iff_rule Service.reference
                  (Text "(~a&b)->c") (Text "~a&b") (Text "a") (Text "c")
                  (Single "c") _ _))
            _).
  - reflexivity.
  - simpl; discriminate.
  - vm_compute; reflexivity.
Defined.

Lemma is_conjunction_elim_spec_witness :
  exists b,
    is_conjunction_elim (lp := Service.reference) (Text "a&b") (Text "b")
    = Ok b
    /\ (b = true <->
        exists l r,
          Bin And (Str "a") (Str "b") = Bin And l r
          /\ (operand_text (lp := Service.reference) r
              = recover_formula (logicparser := Service.reference) (Single "b")
              \/ operand_text (lp := Service.reference) l
                 = recover_formula (logicparser := Service.reference)
                     (Single "b"))).
Proof.
  refine (@is_conjunction_elim_spec Service.reference (Text "a&b") (Text "b")
            (Bin And (Str "a") (Str "b")) (Single "b") _ _ _).
  - reflexivity.
  - reflexivity.
  - simpl; discriminate.
Defined.

Lemma checks_return_bool_witness :
  exists b,
    is_dilemma (lp := Service.reference)
      (Text "a|b") (Text "b->c") (Text "a->d") (Text "c|d") = Ok b.
Proof.
  refine (proj1 (proj2 (proj2 (proj2
            (@checks_return_bool Service.reference
               (Text "a|b") (Text "b->c") (Text "a->d") (Text "c|d")
               (Bin Or (Str "a") (Str "b"))
               (Bin Implies (Str "b") (Str "c"))
               (Bin Implies (Str "a") (Str "d"))
               (Bin Or (Str "c") (Str "d")) _ _ _ _))))).
  - reflexivity.
  - reflexivity.
  - reflexivity.
  - reflexivity.
Defined.

Lemma unequal_length_symmetric_witness :
  modus_ponens (lp := Service.reference) (Text "a->b") (Text "a")
  = modus_ponens (lp := Service.reference) (Text "a") (Text "a->b").
Proof.
  refine (proj1
            (@unequal_length_symmetric Service.reference
               (Text "a->b") (Text "a") (Text "b")
               (Bin Implies (Str "a") (Str "b")) (Single "a") _ _ _)).
  - reflexivity.
  - reflexivity.
  - simpl; lia.
Defined.

Lemma syntax_error_only_from_parser_witness :
  malformed (lp := Service.reference) (Text "(a")
  \/ malformed (lp := Service.reference) (Text "b").
Proof.
  refine (proj1
            (@syntax_error_only_from_parser Service.reference
               (Text "(a") (Text "b") (Text "c") (Text "d") "right")
            _).
  vm_compute; reflexivity.
Defined.

Lemma success_needs_connective_witness :
  (has_op Or (Neg (Str "a")) /\ is_neg (Bin Or (Str "a") (Str "b")))
  \/ (has_op Or (Bin Or (Str "a") (Str "b")) /\ is_neg (Neg (Str "a"))).
Proof.
  refine (proj1 (proj2 (proj2 (proj2
            (@success_needs_connective Service.reference
               (Text "~a") (Text "a|b")
               (Neg (Str "a")) (Bin Or (Str "a") (Str "b"))
               "right" "b" _ _))))
            _).
  - reflexivity.
  - reflexivity.
  - vm_compute; reflexivity.
Defined.
